(** * prepare_datasets.py: a shallow embedding and its verified properties

    The script downloads two shared prerequisites (a base dataset and the
    [datawarehouse] checkout), then, for every skew parameter [z], runs the
    external transform, filters and augments the table it produced and
    stores the result as an HDF5 file.

    The embedding follows the source statement by statement.  Everything
    the script reaches through the operating system is explicit state:

    - the filesystem is a finite map from paths to nodes (directory, or
      file with its decoded content); paths are the strings the script
      builds, relative to the working directory; there are no symbolic
      links, so [os.path.realpath] keeps a path as it is;
    - child processes ([curl], [git], the transform) are a parameter: a
      function from the command line, the working directory, the
      filesystem and the state of the outside world to an exit status and
      the new filesystem and outside world;
    - standard output is the list of printed lines; the child processes
      that were started are recorded together with the filesystem they
      were started on;
    - the two module-level locks are the set of locks currently held.

    Python exceptions are values; a computation returns, raises, or blocks
    forever on a lock that is never released. *)

From Stdlib Require Import ZArith Ascii String List Lia.
From Stdlib Require Import Floats.SpecFloat.
From stdpp Require Import gmap strings list fin_maps.

(** ** Exceptions *)

Inductive exn_class :=
  | BaseException | Exception | KeyboardInterrupt | SystemExit | GeneratorExit
  | OSError | FileExistsError | FileNotFoundError | NotADirectoryError
  | IsADirectoryError | SubprocessError | CalledProcessError
  | LookupError | KeyError | IndexError | ValueError | TypeError
  | NameError | AttributeError.

Global Instance exn_class_eq_dec : EqDecision exn_class.
Proof. solve_decision. Defined.

(** The direct base class of every exception class used here. *)
Definition base_class (c : exn_class) : option exn_class :=
  match c with
  | BaseException => None
  | Exception | KeyboardInterrupt | SystemExit | GeneratorExit => Some BaseException
  | OSError | SubprocessError | LookupError | ValueError | TypeError
  | NameError | AttributeError => Some Exception
  | FileExistsError | FileNotFoundError | NotADirectoryError
  | IsADirectoryError => Some OSError
  | CalledProcessError => Some SubprocessError
  | KeyError | IndexError => Some LookupError
  end.

Fixpoint issubclass_fuel (fuel : nat) (c d : exn_class) : bool :=
  if decide (c = d) then true
  else match fuel, base_class c with
       | S fuel', Some b => issubclass_fuel fuel' b d
       | _, _ => false
       end.

(** The hierarchy above is three levels deep. *)
Definition issubclass (c d : exn_class) : bool := issubclass_fuel 3 c d.

(** An exception object: its class and its message. *)
Record exn := { exn_type : exn_class; exn_args : string }.

Global Instance exn_eq_dec : EqDecision exn.
Proof. solve_decision. Defined.

Definition isinstance (e : exn) (c : exn_class) : bool :=
  issubclass (exn_type e) c.

(** ** Tables *)

Inductive cell :=
  | CFloat (f : spec_float)
  | CInt (n : Z)
  | CStr (s : string).

(** A [pandas.DataFrame]: the column labels and the rows, in order. *)
Record DataFrame := { columns : list string; rows : list (list cell) }.

(** ** The filesystem *)

Inductive content :=
  | Csv (df : DataFrame)                    (* a table as (compressed) text *)
  | Hdf5 (store : gmap string DataFrame)    (* an HDF5 store: key to table *)
  | Blob (b : string).                      (* anything else *)

Inductive node :=
  | Dir
  | File (c : content).

(** ** Locks, output and processes *)

Inductive lock := datawarehouse_lock | base_dataset_lock.

Global Instance lock_eq_dec : EqDecision lock.
Proof. solve_decision. Defined.

Global Instance lock_countable : Countable lock.
Proof.
  refine (inj_countable'
    (λ l, match l with datawarehouse_lock => 0 | base_dataset_lock => 1 end)
    (λ n, match n with 0 => datawarehouse_lock | _ => base_dataset_lock end) _).
  by intros [].
Defined.

(** A printed line.  Lines with interpolated values keep the values. *)
Inductive line :=
  | Msg (s : string)
  | ExceptionLine (e : exn)                 (* f'Exception: {e}' *)
  | Preparing (z : string)                  (* f'Preparing skewed dataset for z = {z}...' *)
  | Prepared (z : string) (len : nat)       (* f'Prepared skewed dataset for z = {z}, length = {len(df)}' *)
  | Done (i n : nat) (z : string).          (* f'Done ({i+1}/{n}) z = {futures[future]}' *)

(** A started child process, with the filesystem it was started on. *)
Record proc := { argv : list string; cwd : string; seen : gmap string node }.

(** ** External collaborators *)

Class Externals := {
  (** the state of everything outside the machine (remote servers, network) *)
  Env : Type;
  (** [subprocess.run]: exit status, filesystem and outside world afterwards *)
  spawn : list string → string → gmap string node * Env → Z * (gmap string node * Env);
  (** the builtin [float] on strings; [None] is a [ValueError] *)
  float_of_str : string → option spec_float;
}.

Section Model.
Context `{Ext : Externals}.

Record world := {
  fs : gmap string node;
  remote : Env;
  held : gset lock;
  out : list line;
  procs : list proc;
}.

Definition set_fs (f : gmap string node) (w : world) : world :=
  {| fs := f; remote := remote w; held := held w; out := out w; procs := procs w |}.
Definition set_remote (r : Env) (w : world) : world :=
  {| fs := fs w; remote := r; held := held w; out := out w; procs := procs w |}.
Definition set_held (h : gset lock) (w : world) : world :=
  {| fs := fs w; remote := remote w; held := h; out := out w; procs := procs w |}.
Definition add_out (l : line) (w : world) : world :=
  {| fs := fs w; remote := remote w; held := held w; out := out w ++ [l]; procs := procs w |}.
Definition add_proc (p : proc) (w : world) : world :=
  {| fs := fs w; remote := remote w; held := held w; out := out w; procs := procs w ++ [p] |}.

(** ** The monad of the script *)

Inductive result (A : Type) :=
  | Ok (a : A)
  | Raise (e : exn)
  | Block.
Global Arguments Ok {A} a.
Global Arguments Raise {A} e.
Global Arguments Block {A}.

Definition M (A : Type) : Type := world → result A * world.

Definition ret {A} (a : A) : M A := λ w, (Ok a, w).
Definition raise {A} (e : exn) : M A := λ w, (Raise e, w).
Definition bind {A B} (m : M A) (k : A → M B) : M B := λ w,
  match m w with
  | (Ok a, w') => k a w'
  | (Raise e, w') => (Raise e, w')
  | (Block, w') => (Block, w')
  end.
Definition lift {A} (r : result A) : M A := λ w, (r, w).

End Model.

Declare Scope py_scope.
Delimit Scope py_scope with py.
Notation "x <- m ;; k" := (bind m (fun x => k))
  (at level 100, m at next level, k at level 200, right associativity) : py_scope.
Notation "m ;; k" := (bind m (fun _ => k))
  (at level 100, k at level 200, right associativity) : py_scope.
Local Open Scope py_scope.

Section Script.
Context `{Ext : Externals}.

Definition error (c : exn_class) (msg : string) : exn :=
  {| exn_type := c; exn_args := msg |}.

(** *** [print] *)
Definition print (l : line) : M unit := λ w, (Ok tt, add_out l w).

(** *** [os.path] and [os] *)

Definition os_path_exists (path : string) : M bool := λ w,
  (Ok (bool_decide (is_Some (fs w !! path))), w).

(** No symbolic links and a fixed working directory. *)
Definition os_path_realpath (path : string) : string := path.

(** The directories above a path: ["a/b/c"] gives [["a"; "a/b"]]. *)
Fixpoint ancestors_from (acc s : string) : list string :=
  match s with
  | EmptyString => []
  | String c s' =>
      if Ascii.eqb c "/"%char then acc :: ancestors_from (acc +:+ "/") s'
      else ancestors_from (acc +:+ String c EmptyString) s'
  end.

Definition ancestors (path : string) : list string := ancestors_from "" path.

Definition dirname (path : string) : string := default "" (last (ancestors path)).

(** The working directory is the empty path. *)
Definition is_dir (f : gmap string node) (path : string) : bool :=
  match f !! path with
  | Some Dir => true
  | _ => bool_decide (path = "")
  end.

Fixpoint mkdir_chain (ps : list string) (f : gmap string node)
  : result (gmap string node) :=
  match ps with
  | [] => Ok f
  | p :: ps' =>
      if decide (p = "") then mkdir_chain ps' f
      else match f !! p with
           | None => mkdir_chain ps' (<[p := Dir]> f)
           | Some Dir => mkdir_chain ps' f
           | Some (File _) =>
               match ps' with
               | [] => Raise (error FileExistsError p)
               | _ => Raise (error NotADirectoryError p)
               end
           end
  end.

(** [os.makedirs(path, exist_ok=True)] *)
Definition os_makedirs (path : string) : M unit := λ w,
  match mkdir_chain (ancestors path ++ [path]) (fs w) with
  | Ok f => (Ok tt, set_fs f w)
  | Raise e => (Raise e, w)
  | Block => (Block, w)
  end.

(** [q] lies strictly below [p]. *)
Definition under (p q : string) : bool := bool_decide (p ∈ ancestors q).

Definition outside (p : string) (kv : string * node) : Prop :=
  kv.1 ≠ p ∧ under p kv.1 = false.

Global Instance outside_dec p kv : Decision (outside p kv).
Proof. unfold outside. apply _. Defined.

(** [shutil.rmtree(path)] *)
Definition shutil_rmtree (path : string) : M unit := λ w,
  match fs w !! path with
  | Some Dir => (Ok tt, set_fs (filter (outside path) (fs w)) w)
  | Some (File _) => (Raise (error NotADirectoryError path), w)
  | None => (Raise (error FileNotFoundError path), w)
  end.

(** [os.remove(path)] *)
Definition os_remove (path : string) : M unit := λ w,
  match fs w !! path with
  | Some (File _) => (Ok tt, set_fs (delete path (fs w)) w)
  | Some Dir => (Raise (error IsADirectoryError path), w)
  | None => (Raise (error FileNotFoundError path), w)
  end.

(** *** [subprocess.run(args, check=True, cwd=dir)]

    The child is started only when its working directory exists; a
    non-zero exit status becomes [CalledProcessError]. *)
Definition subprocess_run (args : list string) (dir : string) : M unit := λ w,
  if is_dir (fs w) dir then
    let w0 := add_proc {| argv := args; cwd := dir; seen := fs w |} w in
    let '(code, (f', r')) := spawn args dir (fs w, remote w) in
    let w' := set_fs f' (set_remote r' w0) in
    if decide (code = 0%Z) then (Ok tt, w')
    else (Raise (error CalledProcessError (hd "" args)), w')
  else (Raise (error FileNotFoundError dir), w).

(** *** pandas *)

Definition result_bind {A B} (r : result A) (k : A → result B) : result B :=
  match r with
  | Ok a => k a
  | Raise e => Raise e
  | Block => Block
  end.

(** Every row of a parsed table has one cell per column. *)
Definition rectangular (df : DataFrame) : bool :=
  forallb (λ row : list cell, length row =? length (columns df)) (rows df).

(** [pd.read_csv(path)]: text that does not parse to a table is a
    [ParserError], a [ValueError]. *)
Definition pd_read_csv (path : string) : M DataFrame := λ w,
  match fs w !! path with
  | Some (File (Csv df)) =>
      if rectangular df then (Ok df, w) else (Raise (error ValueError path), w)
  | Some (File _) => (Raise (error ValueError path), w)
  | Some Dir => (Raise (error IsADirectoryError path), w)
  | None => (Raise (error FileNotFoundError path), w)
  end.

Fixpoint index_of (name : string) (cols : list string) : option nat :=
  match cols with
  | [] => None
  | c :: cols' => if decide (c = name) then Some 0 else S <$> index_of name cols'
  end.

(** [df[name]]: the cells of the column, top to bottom. *)
Definition getitem (df : DataFrame) (name : string) : result (list cell) :=
  match index_of name (columns df) with
  | None => Raise (error KeyError name)
  | Some j =>
      match mapM (λ row : list cell, row !! j) (rows df) with
      | Some cs => Ok cs
      | None => Raise (error IndexError name)
      end
  end.

(** The binary64 number 22.0, that is 6192449487634432 * 2^-48. *)
Definition float_22 : spec_float := S754_finite false 6192449487634432 (-48).

(** [c > 22] on one cell: IEEE comparison on floats (false on NaN),
    integer comparison on integers, [TypeError] on strings. *)
Definition cell_gt_22 (c : cell) : result bool :=
  match c with
  | CFloat f => Ok (SFltb float_22 f)
  | CInt n => Ok (22 <? n)%Z
  | CStr _ => Raise (error TypeError "'>' not supported between 'str' and 'int'")
  end.

(** [series > 22] *)
Fixpoint series_gt_22 (s : list cell) : result (list bool) :=
  match s with
  | [] => Ok []
  | c :: s' =>
      result_bind (cell_gt_22 c) (λ b,
      result_bind (series_gt_22 s') (λ bs, Ok (b :: bs)))
  end.

Fixpoint select {A} (xs : list A) (mask : list bool) : list A :=
  match xs, mask with
  | x :: xs', b :: mask' => if b then x :: select xs' mask' else select xs' mask'
  | _, _ => []
  end.

(** [df[mask]]: the rows whose mask entry is true. *)
Definition getitem_mask (df : DataFrame) (mask : list bool) : DataFrame :=
  {| columns := columns df; rows := select (rows df) mask |}.

(** [df[name] = v] with a scalar [v]: overwrite the column when it exists,
    append it otherwise. *)
Definition setitem (df : DataFrame) (name : string) (v : cell) : DataFrame :=
  match index_of name (columns df) with
  | Some j => {| columns := columns df; rows := (λ row, <[j := v]> row) <$> rows df |}
  | None => {| columns := columns df ++ [name]; rows := (λ row, row ++ [v]) <$> rows df |}
  end.

(** [float(z)] *)
Definition float (z : string) : result spec_float :=
  match float_of_str z with
  | Some f => Ok f
  | None => Raise (error ValueError z)
  end.

(** [df.to_hdf(path, key=key, complib=.., complevel=..)]: the default mode
    appends to an existing store and creates a missing one.  The codec and
    its level only change the encoding, which [Hdf5] abstracts. *)
Definition to_hdf (df : DataFrame) (path key complib : string) (complevel : nat)
  : M unit := λ w,
  match fs w !! path with
  | None =>
      if is_dir (fs w) (dirname path)
      then (Ok tt, set_fs (<[path := File (Hdf5 {[key := df]})]> (fs w)) w)
      else (Raise (error FileNotFoundError path), w)
  | Some (File (Hdf5 store)) =>
      (Ok tt, set_fs (<[path := File (Hdf5 (<[key := df]> store))]> (fs w)) w)
  | Some (File _) => (Raise (error OSError path), w)
  | Some Dir => (Raise (error IsADirectoryError path), w)
  end.

(** *** [with lock:] *)

(** A [threading.Lock] is not reentrant: acquiring a held lock waits.  The
    lock is released when the body returns and when it raises. *)
Definition with_lock {A} (l : lock) (body : M A) : M A := λ w,
  if decide (l ∈ held w) then (Block, w)
  else let '(r, w') := body (set_held ({[l]} ∪ held w) w) in
       (r, set_held (held w' ∖ {[l]}) w').

(** ** The script *)

(** Lines 15-27, the block under [with datawarehouse_lock]. *)
Definition datawarehouse_critical : M unit :=
  os_makedirs "data/3rd-party" ;;
  present <- os_path_exists "data/3rd-party/datawarehouse/datawarehouse/higgsml.py" ;;
  if present then ret tt else
  print (Msg "Downloading datawarehouse...") ;;
  stale <- os_path_exists "data/3rd-party/datawarehouse" ;;
  (if stale then shutil_rmtree "data/3rd-party/datawarehouse" else ret tt) ;;
  subprocess_run
    ["git"; "clone"; "https://github.com/kodo-pp/datawarehouse"; "--branch"; "fixes"]
    "data/3rd-party" ;;
  print (Msg "Downloaded datawarehouse").

Definition ensure_datawarehouse_downloaded : M unit :=
  with_lock datawarehouse_lock datawarehouse_critical.

(** Lines 34-44, the block under [with base_dataset_lock]. *)
Definition base_dataset_critical : M unit :=
  os_makedirs "data" ;;
  present <- os_path_exists "data/atlas-higgs-challenge-2014-v2.csv.gz" ;;
  if present then ret tt else
  print (Msg "Downloading base dataset...") ;;
  subprocess_run
    ["curl"; "-O";
     "https://opendata.cern.ch/record/328/files/atlas-higgs-challenge-2014-v2.csv.gz"]
    "data" ;;
  print (Msg "Downloaded base dataset").

Definition ensure_base_dataset_downloaded : M unit :=
  with_lock base_dataset_lock base_dataset_critical.

(** [except BaseException as e] catches every exception object. *)
Definition catch {A B} (func : A → M B) : A → M (option exn) := λ args w,
  match func args w with
  | (Ok _, w') => (Ok None, w')
  | (Raise e, w') =>
      if isinstance e BaseException
      then (print (ExceptionLine e) ;; ret (Some e)) w'
      else (Raise e, w')
  | (Block, w') => (Block, w')
  end.

Definition csv_path (z : string) : string :=
  os_path_realpath ("data/skewed/HiggsML_TES_" +:+ z +:+ ".csv.gz").
Definition h5_path (z : string) : string :=
  os_path_realpath ("data/skewed/HiggsML_TES_" +:+ z +:+ ".h5").

Definition ensure_skewed_dataset_prepared (z : string) : M unit :=
  ensure_base_dataset_downloaded ;;
  ensure_datawarehouse_downloaded ;;
  os_makedirs "data/skewed" ;;
  let output_csv_path := csv_path z in
  let output_h5_path := h5_path z in
  let input_path := os_path_realpath "data/atlas-higgs-challenge-2014-v2.csv.gz" in
  durable <- os_path_exists output_h5_path ;;
  if durable then ret tt else
  print (Preparing z) ;;
  intermediate <- os_path_exists output_csv_path ;;
  (if negb intermediate then
     subprocess_run
       ["python"; "-m"; "datawarehouse.higgsml";
        "-i"; input_path; "-o"; output_csv_path; "--tes"; z]
       "data/3rd-party/datawarehouse"
   else ret tt) ;;
  print (Msg "Reading CSV...") ;;
  df <- pd_read_csv output_csv_path ;;
  print (Msg "Applying filter...") ;;
  series <- lift (getitem df "PRI_tau_pt") ;;
  mask <- lift (series_gt_22 series) ;;
  let df := getitem_mask df mask in
  v <- lift (float z) ;;
  let df := setitem df "Z" (CFloat v) in
  print (Msg "Writing HDF5...") ;;
  to_hdf df output_h5_path "data_syst" "bzip2" 3 ;;
  os_remove output_csv_path ;;
  print (Prepared z (length (rows df))).

(** *** The batch runner *)

(** [ThreadPoolExecutor(max_workers=1)]: the one worker thread runs the
    submitted calls in submission order and stores what each call returned
    or raised in its future.  Leaving the [with] block waits for every
    submitted call, also when the block is left by an exception. *)
Fixpoint executor_run {A B} (fn : A → M B) (args : list A) : M (list (result B)) :=
  λ w,
  match args with
  | [] => (Ok [], w)
  | a :: args' =>
      match fn a w with
      | (Block, w') => (Block, w')
      | (r, w') =>
          match executor_run fn args' w' with
          | (Ok rs, w'') => (Ok (r :: rs), w'')
          | (Raise e, w'') => (Raise e, w'')
          | (Block, w'') => (Block, w'')
          end
      end
  end.

(** [future.result()] *)
Definition future_result {B} (future : result B) : M B := lift future.

(** The body of the [for] loop over [enumerate(as_completed(futures))],
    from index [i] on. *)
Fixpoint report (n i : nat) (completed : list (result (option exn) * string))
  : M unit :=
  match completed with
  | [] => ret tt
  | (future, z) :: completed' =>
      exc <- future_result future ;;
      match exc with
      | Some e => raise e
      | None => print (Done (i + 1) n z) ;; report n (S i) completed'
      end
  end.

(** [as_completed] yields every future once; [order] lists the positions
    of the futures in the order in which they are yielded. *)
Definition as_completed {F} (futures : list F) (order : list nat) : list F :=
  omap (λ i, futures !! i) order.

Definition prepare_datasets_for (z_values : list string) (order : list nat) : M unit :=
  let n := length z_values in
  results <- executor_run (catch ensure_skewed_dataset_prepared) z_values ;;
  let futures := zip results z_values in
  report n 0 (as_completed futures order).

(** [str(z)] of the 24 literals of [prepare_all_datasets]. *)
Definition z_values : list string :=
  ["0.7"; "0.74"; "0.78"; "0.8"; "0.84"; "0.88";
   "0.9"; "0.92"; "0.94"; "0.96"; "0.98"; "0.99";
   "1.0"; "1.01"; "1.02"; "1.04"; "1.06"; "1.08";
   "1.09"; "1.1"; "1.11"; "1.12"; "1.13"; "1.14"].

Definition prepare_all_datasets (order : list nat) : M unit :=
  prepare_datasets_for z_values order.

(** ** The two resources, side by side *)

Inductive resource := BaseDataset | Datawarehouse.

Definition resource_lock (R : resource) : lock :=
  match R with
  | BaseDataset => base_dataset_lock
  | Datawarehouse => datawarehouse_lock
  end.

(** The path whose existence means "already downloaded". *)
Definition marker (R : resource) : string :=
  match R with
  | BaseDataset => "data/atlas-higgs-challenge-2014-v2.csv.gz"
  | Datawarehouse => "data/3rd-party/datawarehouse/datawarehouse/higgsml.py"
  end.

(** What the download creates in its working directory: the file that
    [curl -O] names after the URL, the directory that [git clone] names
    after the repository.  For the base dataset this is the marker
    itself. *)
Definition storage (R : resource) : string :=
  match R with
  | BaseDataset => "data/atlas-higgs-challenge-2014-v2.csv.gz"
  | Datawarehouse => "data/3rd-party/datawarehouse"
  end.

(** Where the resource is kept, the directory that has the marker
    inside: the data directory for the flat file (line 42), the
    directory of the checkout for the tool (lines 16 and 20). *)
Definition storage_location (R : resource) : string :=
  match R with
  | BaseDataset => "data"
  | Datawarehouse => "data/3rd-party/datawarehouse"
  end.

Definition fetch_dir (R : resource) : string :=
  match R with
  | BaseDataset => "data"
  | Datawarehouse => "data/3rd-party"
  end.

Definition fetch_argv (R : resource) : list string :=
  match R with
  | BaseDataset =>
      ["curl"; "-O";
       "https://opendata.cern.ch/record/328/files/atlas-higgs-challenge-2014-v2.csv.gz"]
  | Datawarehouse =>
      ["git"; "clone"; "https://github.com/kodo-pp/datawarehouse"; "--branch"; "fixes"]
  end.

Definition critical (R : resource) : M unit :=
  match R with
  | BaseDataset => base_dataset_critical
  | Datawarehouse => datawarehouse_critical
  end.

Definition ensure (R : resource) : M unit :=
  match R with
  | BaseDataset => ensure_base_dataset_downloaded
  | Datawarehouse => ensure_datawarehouse_downloaded
  end.

(** The child processes that download [R]. *)
Definition is_fetch (R : resource) (p : proc) : bool :=
  bool_decide (argv p = fetch_argv R).

Definition fetches (R : resource) (w : world) : list proc :=
  filter (λ p, is_fetch R p = true) (procs w).

(** The transform runs [python -m datawarehouse.higgsml]. *)
Definition is_transform (p : proc) : bool :=
  bool_decide (take 3 (argv p) = ["python"; "-m"; "datawarehouse.higgsml"]).

(** ** Filesystems that are trees *)

(** Every existing path lies in existing directories. *)
Definition tree (f : gmap string node) : Prop :=
  map_Forall (λ q _, Forall (λ p, is_dir f p = true) (ancestors q)) f.

(** The resource is there. *)
Definition present (R : resource) (w : world) : Prop :=
  is_Some (fs w !! marker R).

(** ** Where [ensure_skewed_dataset_prepared] looks for the durable file *)

(** Lines 57-60; line 65 tests the filesystem these leave behind. *)
Definition prerequisites : M unit :=
  ensure_base_dataset_downloaded ;;
  ensure_datawarehouse_downloaded ;;
  os_makedirs "data/skewed".

Definition durable_at_check (z : string) (w : world) : option node :=
  fs (prerequisites w).2 !! h5_path z.

(** Lines 57-81: what [ensure_skewed_dataset_prepared z] does before it
    reads the table at line 82.  The filesystem this leaves is the one
    that [pd.read_csv] sees. *)
Definition before_read (z : string) : M unit :=
  ensure_base_dataset_downloaded ;;
  ensure_datawarehouse_downloaded ;;
  os_makedirs "data/skewed" ;;
  let output_csv_path := csv_path z in
  let output_h5_path := h5_path z in
  let input_path := os_path_realpath "data/atlas-higgs-challenge-2014-v2.csv.gz" in
  durable <- os_path_exists output_h5_path ;;
  if durable then ret tt else
  print (Preparing z) ;;
  intermediate <- os_path_exists output_csv_path ;;
  (if negb intermediate then
     subprocess_run
       ["python"; "-m"; "datawarehouse.higgsml";
        "-i"; input_path; "-o"; output_csv_path; "--tes"; z]
       "data/3rd-party/datawarehouse"
   else ret tt) ;;
  print (Msg "Reading CSV...").

(** ** Reading a table *)

(** The cell of [row] in the column [name] of [df]. *)
Definition value_at (df : DataFrame) (name : string) (row : list cell) : option cell :=
  j ← index_of name (columns df); row !! j.

(** [c <= 22] on one cell, the comparison the filter must never let through. *)
Definition cell_le_22 (c : cell) : result bool :=
  match c with
  | CFloat f => Ok (SFleb f float_22)
  | CInt n => Ok (n <=? 22)%Z
  | CStr _ => Raise (error TypeError "'<=' not supported between 'str' and 'int'")
  end.

(** The table stored under [key] in the HDF5 file at [path]. *)
Definition stored (f : gmap string node) (path key : string) : option DataFrame :=
  match f !! path with
  | Some (File (Hdf5 store)) => store !! key
  | _ => None
  end.

(** ** Progress lines *)

(** The world after printing the lines [ls]. *)
Definition log (ls : list line) (w : world) : world :=
  {| fs := fs w; remote := remote w; held := held w; out := out w ++ ls;
     procs := procs w |}.

(** The lines [Done (i+1/n)], [Done (i+2/n)], ... for the values [zs]. *)
Fixpoint progress_lines (n i : nat) (zs : list string) : list line :=
  match zs with
  | [] => []
  | z :: zs' => Done (i + 1) n z :: progress_lines n (S i) zs'
  end.

(** ** Several workers calling [ensure] *)

(** Where a worker is in [with lock: body]. *)
Inductive pc :=
  | Waiting                       (* before acquiring the lock *)
  | Holding                       (* lock acquired, body not yet run *)
  | Leaving (r : result unit)     (* body done, lock not yet released *)
  | Finished (r : result unit).   (* returned or raised *)

Record system := { shared : world; workers : list pc }.

Definition in_critical (s : pc) : bool :=
  match s with
  | Holding | Leaving _ => true
  | Waiting | Finished _ => false
  end.

(** One step of worker [i], if it can move.  A waiting worker moves only
    when the lock is free.  While a worker holds the lock every other
    worker of the system is waiting or finished, so nothing can be
    scheduled between the statements of the body: the body is one step. *)
Definition worker_step (R : resource) (i : nat) (s : system) : option system :=
  let l := resource_lock R in
  let w := shared s in
  match workers s !! i with
  | Some Waiting =>
      if decide (l ∈ held w) then None
      else Some {| shared := set_held ({[l]} ∪ held w) w;
                   workers := <[i := Holding]> (workers s) |}
  | Some Holding =>
      let '(r, w') := critical R w in
      Some {| shared := w'; workers := <[i := Leaving r]> (workers s) |}
  | Some (Leaving r) =>
      Some {| shared := set_held (held w ∖ {[l]}) w;
              workers := <[i := Finished r]> (workers s) |}
  | Some (Finished _) | None => None
  end.

(** The scheduler picks workers one after the other; picking a worker
    that cannot move changes nothing. *)
Fixpoint run_schedule (R : resource) (schedule : list nat) (s : system) : system :=
  match schedule with
  | [] => s
  | i :: schedule' =>
      match worker_step R i s with
      | Some s' => run_schedule R schedule' s'
      | None => run_schedule R schedule' s
      end
  end.

Definition start (k : nat) (w : world) : system :=
  {| shared := w; workers := replicate k Waiting |}.

Definition finished (t : pc) : bool :=
  match t with
  | Finished _ => true
  | _ => false
  end.

Definition all_finished (s : system) : Prop :=
  Forall (λ t, finished t = true) (workers s).

(** No worker has run the body yet. *)
Definition untouched (R : resource) (w0 : world) (s : system) : Prop :=
  fs (shared s) = fs w0 ∧ procs (shared s) = procs w0 ∧
  ∀ i t, workers s !! i = Some t → t = Waiting ∨ t = Holding.

(** The directories that [os.makedirs] walks before a download. *)
Definition download_dirs (R : resource) : list string :=
  ancestors (fetch_dir R) ++ [fetch_dir R].

Definition dirs_ready (R : resource) (f : gmap string node) : Prop :=
  Forall (λ p, is_dir f p = true) (download_dirs R).

(** The download works: started in its directory, the command exits with
    status 0 and leaves the marker, and the directory, in place. *)
Definition fetch_succeeds (R : resource) : Prop :=
  ∀ f r, dirs_ready R f →
    let o := spawn (fetch_argv R) (fetch_dir R) (f, r) in
    o.1 = 0%Z ∧ is_Some (o.2.1 !! marker R) ∧ dirs_ready R o.2.1.

(** One worker has downloaded [R]; every worker past its body returned. *)
Definition fetched (R : resource) (w0 : world) (s : system) : Prop :=
  (∃ p, procs (shared s) = procs w0 ++ [p] ∧ argv p = fetch_argv R) ∧
  present R (shared s) ∧ dirs_ready R (fs (shared s)) ∧
  ∀ i t, workers s !! i = Some t →
         t = Waiting ∨ t = Holding ∨ t = Leaving (Ok tt) ∨ t = Finished (Ok tt).

(** At most one worker is inside [with lock:], and the lock is held
    exactly when one is. *)
Definition exclusive (R : resource) (s : system) : Prop :=
  (∀ i j ti tj, workers s !! i = Some ti → workers s !! j = Some tj →
                in_critical ti = true → in_critical tj = true → i = j) ∧
  (resource_lock R ∈ held (shared s) ↔
   ∃ i t, workers s !! i = Some t ∧ in_critical t = true).

Definition invariant (R : resource) (w0 : world) (s : system) : Prop :=
  exclusive R s ∧ (untouched R w0 s ∨ fetched R w0 s).

(** ** Standard output only grows *)

Definition grows {A} (m : M A) : Prop := ∀ w, out w `prefix_of` out (m w).2.

Definition is_done (l : line) : bool :=
  match l with
  | Done _ _ _ => true
  | _ => false
  end.

(** ** What a run leaves alone, and what it may start *)

(** A computation leaves a component [f] of the world as it found it. *)
Definition keeps {A X} (f : world → X) (m : M A) : Prop := ∀ w, f (m w).2 = f w.

(** A computation that never waits for a lock. *)
Definition nonblocking {A} (m : M A) : Prop := ∀ w, (m w).1 ≠ Block.

(** A run from [w] has started at most [n] processes, all satisfying [Q]. *)
Definition spawned {A} (Q : proc → Prop) (n : nat) (w : world)
    (x : result A * world) : Prop :=
  ∃ l, procs x.2 = procs w ++ l ∧ length l ≤ n ∧ Forall Q l.

(** The two lines around a download (lines 19 and 27, 38 and 44). *)
Definition downloading (R : resource) : line :=
  match R with
  | BaseDataset => Msg "Downloading base dataset..."
  | Datawarehouse => Msg "Downloading datawarehouse..."
  end.

Definition downloaded (R : resource) : line :=
  match R with
  | BaseDataset => Msg "Downloaded base dataset"
  | Datawarehouse => Msg "Downloaded datawarehouse"
  end.

(** The download of [R], started in its directory. *)
Definition is_download (R : resource) (p : proc) : Prop :=
  argv p = fetch_argv R ∧ cwd p = fetch_dir R.

(** The command line of the transform for [z] (lines 71-76) and the
    directory it runs in (line 78). *)
Definition transform_argv (z : string) : list string :=
  ["python"; "-m"; "datawarehouse.higgsml";
   "-i"; os_path_realpath "data/atlas-higgs-challenge-2014-v2.csv.gz";
   "-o"; csv_path z; "--tes"; z].

Definition transform_dir : string := "data/3rd-party/datawarehouse".

(** What [ensure_skewed_dataset_prepared z] may start: one of the two
    downloads, or the transform for [z] on a filesystem that has neither
    the durable nor the intermediate file. *)
Definition allowed_process (z : string) (p : proc) : Prop :=
  is_download BaseDataset p ∨ is_download Datawarehouse p ∨
  (argv p = transform_argv z ∧ cwd p = transform_dir ∧
   seen p !! h5_path z = None ∧ seen p !! csv_path z = None).

(** ** The filter and the new column, row by row *)

(** The row has a [PRI_tau_pt] cell that is [> 22]. *)
Definition passes (df : DataFrame) (row : list cell) : bool :=
  match value_at df "PRI_tau_pt" row with
  | Some c => match cell_gt_22 c with Ok true => true | _ => false end
  | None => false
  end.

(** What [df['Z'] = v] makes of one row of a table with the columns [cols]. *)
Definition with_z (cols : list string) (v : spec_float) (row : list cell) : list cell :=
  match index_of "Z" cols with
  | Some j => <[j := CFloat v]> row
  | None => row ++ [CFloat v]
  end.

(** ** Workers, whatever the download does *)

(** The worker has run the body of the [with] block. *)
Definition past_body (t : pc) : bool :=
  match t with
  | Leaving _ | Finished _ => true
  | Waiting | Holding => false
  end.

(** Mutual exclusion, the lock given back, and at most one download per
    body that has run. *)
Definition serialized (R : resource) (w0 : world) (s : system) : Prop :=
  exclusive R s ∧
  held (shared s) ∖ {[resource_lock R]} = held w0 ∧
  ∃ l, procs (shared s) = procs w0 ++ l ∧
       length l ≤ length (filter (λ t, past_body t = true) (workers s)) ∧
       Forall (is_download R) l.

End Script.

(** ** The [Counter] class (lines 91-102) *)

Module Counter.

Inductive value :=
  | VInt (n : Z)
  | VLock (locked : bool)
  | VModule (name : string)
  | VFunction (name : string).

(** The names bound at module level once the module body has run: the
    imports of lines 1-8, the two locks, the functions and the class.
    [from threading import Lock] binds [Lock] and nothing else. *)
Definition module_globals : gmap string value :=
  list_to_map
    [("subprocess", VModule "subprocess"); ("os", VModule "os");
     ("shutil", VModule "shutil");
     ("ThreadPoolExecutor", VFunction "concurrent.futures.ThreadPoolExecutor");
     ("as_completed", VFunction "concurrent.futures.as_completed");
     ("List", VFunction "typing.List"); ("Any", VFunction "typing.Any");
     ("Lock", VFunction "threading.Lock");
     ("pd", VModule "pandas");
     ("datawarehouse_lock", VLock false);
     ("ensure_datawarehouse_downloaded", VFunction "ensure_datawarehouse_downloaded");
     ("base_dataset_lock", VLock false);
     ("ensure_base_dataset_downloaded", VFunction "ensure_base_dataset_downloaded");
     ("catch", VFunction "catch");
     ("ensure_skewed_dataset_prepared", VFunction "ensure_skewed_dataset_prepared");
     ("Counter", VFunction "Counter");
     ("prepare_datasets_for", VFunction "prepare_datasets_for");
     ("prepare_all_datasets", VFunction "prepare_all_datasets");
     ("__name__", VFunction "__name__"); ("__doc__", VFunction "__doc__");
     ("__file__", VFunction "__file__"); ("__package__", VFunction "__package__");
     ("__loader__", VFunction "__loader__"); ("__spec__", VFunction "__spec__");
     ("__builtins__", VModule "builtins")].

(** The names of the [builtins] module. *)
Definition builtins : list string :=
  ["abs"; "aiter"; "all"; "anext"; "any"; "ascii"; "bin"; "bool"; "breakpoint";
   "bytearray"; "bytes"; "callable"; "chr"; "classmethod"; "compile"; "complex";
   "copyright"; "credits"; "delattr"; "dict"; "dir"; "divmod"; "enumerate";
   "eval"; "exec"; "exit"; "filter"; "float"; "format"; "frozenset"; "getattr";
   "globals"; "hasattr"; "hash"; "help"; "hex"; "id"; "input"; "int";
   "isinstance"; "issubclass"; "iter"; "len"; "license"; "list"; "locals";
   "map"; "max"; "memoryview"; "min"; "next"; "object"; "oct"; "open"; "ord";
   "pow"; "print"; "property"; "quit"; "range"; "repr"; "reversed"; "round";
   "set"; "setattr"; "slice"; "sorted"; "staticmethod"; "str"; "sum"; "super";
   "tuple"; "type"; "vars"; "zip"; "__import__"; "__build_class__"; "__debug__";
   "None"; "True"; "False"; "Ellipsis"; "NotImplemented";
   "ArithmeticError"; "AssertionError"; "AttributeError"; "BaseException";
   "BaseExceptionGroup"; "BlockingIOError"; "BrokenPipeError"; "BufferError";
   "BytesWarning"; "ChildProcessError"; "ConnectionAbortedError";
   "ConnectionError"; "ConnectionRefusedError"; "ConnectionResetError";
   "DeprecationWarning"; "EOFError"; "EncodingWarning"; "EnvironmentError";
   "Exception"; "ExceptionGroup"; "FileExistsError"; "FileNotFoundError";
   "FloatingPointError"; "FutureWarning"; "GeneratorExit"; "IOError";
   "ImportError"; "ImportWarning"; "IndentationError"; "IndexError";
   "InterruptedError"; "IsADirectoryError"; "KeyError"; "KeyboardInterrupt";
   "LookupError"; "MemoryError"; "ModuleNotFoundError"; "NameError";
   "NotADirectoryError"; "NotImplementedError"; "OSError"; "OverflowError";
   "PendingDeprecationWarning"; "PermissionError"; "ProcessLookupError";
   "RecursionError"; "ReferenceError"; "ResourceWarning"; "RuntimeError";
   "RuntimeWarning"; "StopAsyncIteration"; "StopIteration"; "SyntaxError";
   "SyntaxWarning"; "SystemError"; "SystemExit"; "TabError"; "TimeoutError";
   "TypeError"; "UnboundLocalError"; "UnicodeDecodeError"; "UnicodeEncodeError";
   "UnicodeError"; "UnicodeTranslateError"; "UnicodeWarning"; "UserWarning";
   "ValueError"; "Warning"; "ZeroDivisionError"].

(** A global name in a function body: module globals, then builtins. *)
Definition lookup_name (globals : gmap string value) (name : string) : result value :=
  match globals !! name with
  | Some v => Ok v
  | None =>
      if bool_decide (name ∈ builtins) then Ok (VFunction name)
      else Raise (error NameError name)
  end.

(** What the class and [object] define. *)
Definition class_attributes : list string :=
  ["__init__"; "inc"; "get"; "__module__"; "__dict__"; "__weakref__"; "__doc__";
   "__class__"; "__delattr__"; "__dir__"; "__eq__"; "__format__"; "__ge__";
   "__getattribute__"; "__getstate__"; "__gt__"; "__hash__";
   "__init_subclass__"; "__le__"; "__lt__"; "__ne__"; "__new__"; "__reduce__";
   "__reduce_ex__"; "__repr__"; "__setattr__"; "__sizeof__"; "__str__";
   "__subclasshook__"].

(** [self.name]: the instance dictionary, then the class. *)
Definition getattr (self : gmap string value) (name : string) : result value :=
  match self !! name with
  | Some v => Ok v
  | None =>
      if bool_decide (name ∈ class_attributes) then Ok (VFunction name)
      else Raise (error AttributeError name)
  end.

(** Lines 92-94.  The instance is its dictionary, threaded through. *)
Definition __init__ (globals self : gmap string value)
  : result unit * gmap string value :=
  let self := <["_value" := VInt 0]> self in
  match lookup_name globals "threading" with
  | Ok (VModule name) =>
      if decide (name = "threading")
      then (Ok tt, <["_lock" := VLock false]> self)
      else (Raise (error AttributeError "Lock"), self)
  | Ok _ => (Raise (error AttributeError "Lock"), self)
  | Raise e => (Raise e, self)
  | Block => (Block, self)
  end.

(** [Counter()]: a fresh object, then [__init__]. *)
Definition new (globals : gmap string value) : result (gmap string value) :=
  match __init__ globals ∅ with
  | (Ok _, self) => Ok self
  | (Raise e, _) => Raise e
  | (Block, _) => Block
  end.

(** [with self._lock: body] *)
Definition with_self_lock {A} (self : gmap string value)
    (body : gmap string value → result A * gmap string value)
  : result A * gmap string value :=
  match getattr self "_lock" with
  | Ok (VLock false) =>
      let '(r, self') := body (<["_lock" := VLock true]> self) in
      (r, <["_lock" := VLock false]> self')
  | Ok (VLock true) => (Block, self)
  | Ok _ => (Raise (error AttributeError "__enter__"), self)
  | Raise e => (Raise e, self)
  | Block => (Block, self)
  end.

(** Lines 96-98 *)
Definition inc (self : gmap string value) : result unit * gmap string value :=
  with_self_lock self (λ self,
    match getattr self "_value" with
    | Ok (VInt n) => (Ok tt, <["_value" := VInt (n + 1)]> self)
    | Ok _ => (Raise (error TypeError "+="), self)
    | Raise e => (Raise e, self)
    | Block => (Block, self)
    end).

(** Lines 100-102 *)
Definition get (self : gmap string value) : result value * gmap string value :=
  with_self_lock self (λ self, (getattr self "value", self)).

End Counter.

(** ** Who names whom *)

Module CallGraph.

Inductive symbol :=
  | module_body                        (* the statements at module level *)
  | ensure_datawarehouse_downloaded
  | ensure_base_dataset_downloaded
  | catch
  | catch_inner
  | ensure_skewed_dataset_prepared
  | Counter
  | Counter_init
  | Counter_inc
  | Counter_get
  | prepare_datasets_for
  | prepare_all_datasets.

Global Instance symbol_eq_dec : EqDecision symbol.
Proof. solve_decision. Defined.

(** The definitions of the module that a body calls or hands on.  The
    module body runs the [def] and [class] statements, which bind names
    and run no function body, and then line 125. *)
Definition uses (s : symbol) : list symbol :=
  match s with
  | module_body => [prepare_all_datasets]
  | prepare_all_datasets => [prepare_datasets_for]
  | prepare_datasets_for => [catch; ensure_skewed_dataset_prepared]
  | catch => [catch_inner]
  | ensure_skewed_dataset_prepared =>
      [ensure_base_dataset_downloaded; ensure_datawarehouse_downloaded]
  | Counter => [Counter_init]
  | catch_inner | ensure_datawarehouse_downloaded | ensure_base_dataset_downloaded
  | Counter_init | Counter_inc | Counter_get => []
  end.

Inductive reachable (a : symbol) : symbol → Prop :=
  | reach_here : reachable a a
  | reach_step b c : reachable a b → c ∈ uses b → reachable a c.

(** Everything the entry point can reach. *)
Definition live : list symbol :=
  [module_body; prepare_all_datasets; prepare_datasets_for; catch; catch_inner;
   ensure_skewed_dataset_prepared; ensure_base_dataset_downloaded;
   ensure_datawarehouse_downloaded].

End CallGraph.

(** ** A concrete machine, to run the script on *)

Module Demo.

(** What the transform writes: five events, of which two pass the filter. *)
Definition table : DataFrame :=
  {| columns := ["EventId"; "PRI_tau_pt"; "Label"];
     rows :=
       [ [CInt 100000; CFloat (S754_finite false 4593390144941195 (-47)); CStr "s"];
         [CInt 100001; CFloat (S754_finite false 5629499534213120 (-48)); CStr "b"];
         [CInt 100002; CFloat float_22; CStr "b"];
         [CInt 100003; CFloat S754_nan; CStr "b"];
         [CInt 100004; CFloat (S754_finite false 6333186975989760 (-48)); CStr "s"] ] |}.

(** The outside world counts the child processes it has served.  [curl]
    and [git] succeed; the transform fails for the parameter ["bad"]. *)
Definition run (args : list string) (dir : string) (st : gmap string node * nat)
  : Z * (gmap string node * nat) :=
  let '(f, served) := st in
  if decide (hd "" args = "curl") then
    (0%Z, (<["data/atlas-higgs-challenge-2014-v2.csv.gz" := File (Csv table)]> f,
           S served))
  else if decide (hd "" args = "git") then
    (0%Z, (<["data/3rd-party/datawarehouse/datawarehouse/higgsml.py" := File (Blob "")]>
             (<["data/3rd-party/datawarehouse/datawarehouse" := Dir]>
                (<["data/3rd-party/datawarehouse" := Dir]> f)),
           S served))
  else match args with
       | [_; _; _; _; _; _; o; _; z] =>
           if decide (z = "bad") then (1%Z, (f, S served))
           else (0%Z, (<[o := File (Csv table)]> f, S served))
       | _ => (127%Z, (f, S served))
       end.

Definition parse (z : string) : option spec_float :=
  if decide (z = "1.0") then Some (S754_finite false 4503599627370496 (-52))
  else if decide (z = "1.01") then Some (S754_finite false 4548635623644201 (-52))
  else if decide (z = "0.9") then Some (S754_finite false 8106479329266893 (-53))
  else None.

Definition ext : Externals :=
  {| Env := nat; spawn := run; float_of_str := parse |}.

Definition boot (f : gmap string node) : @world ext :=
  @Build_world ext f 0 ∅ [] [].

(** Nothing downloaded yet. *)
Definition blank : @world ext := boot ∅.

(** An interrupted checkout: the directory is there, the marker is not. *)
Definition stale_checkout : @world ext :=
  boot (list_to_map
    [("data", Dir); ("data/3rd-party", Dir);
     ("data/3rd-party/datawarehouse", Dir);
     ("data/3rd-party/datawarehouse/.git", Dir);
     ("data/3rd-party/datawarehouse/.git/HEAD", File (Blob "ref"))]).

(** An interrupted download of the base dataset: the data directory has
    what [curl] left, the dataset itself is not there. *)
Definition stale_data : @world ext :=
  boot (list_to_map
    [("data", Dir); ("data/atlas-higgs-challenge-2014-v2.csv.gz.part", File (Blob "PK"))]).

(** Both resources downloaded. *)
Definition resources : gmap string node :=
  list_to_map
    [("data", Dir); ("data/3rd-party", Dir); ("data/skewed", Dir);
     ("data/atlas-higgs-challenge-2014-v2.csv.gz", File (Csv table));
     ("data/3rd-party/datawarehouse", Dir);
     ("data/3rd-party/datawarehouse/datawarehouse", Dir);
     ("data/3rd-party/datawarehouse/datawarehouse/higgsml.py", File (Blob ""))].

Definition ready : @world ext := boot resources.

(** The durable file for z = 0.9 is there, the resources are there. *)
Definition done_09 : @world ext :=
  boot (<["data/skewed/HiggsML_TES_0.9.h5" := File (Hdf5 {["data_syst" := table]})]>
          resources).

(** The durable file for z = 0.9 is there, the base dataset is not. *)
Definition done_09_no_base : @world ext :=
  boot (<["data/skewed/HiggsML_TES_0.9.h5" := File (Hdf5 {["data_syst" := table]})]>
          (delete "data/atlas-higgs-challenge-2014-v2.csv.gz" resources)).

(** A run that stopped between writing the durable file and removing the
    intermediate one. *)
Definition done_09_leftover : @world ext :=
  boot (<["data/skewed/HiggsML_TES_0.9.csv.gz" := File (Csv table)]>
       (<["data/skewed/HiggsML_TES_0.9.h5" := File (Hdf5 {["data_syst" := table]})]>
          resources)).

(** A run for [z] that stopped after the transform: the resources and the
    intermediate file are there, the durable file is not. *)
Definition interrupted (z : string) : @world ext :=
  boot (<["data/skewed/HiggsML_TES_" +:+ z +:+ ".csv.gz" := File (Csv table)]> resources).

End Demo.

(** * Proofs *)

Section Basics.
Context `{Ext : Externals}.

Lemma set_fs_same (w : world) : set_fs (fs w) w = w.
Proof. by destruct w. Qed.

Lemma release_acquire (l : lock) (w : world) :
  l ∉ held w → set_held (held (set_held ({[l]} ∪ held w) w) ∖ {[l]}) (set_held ({[l]} ∪ held w) w) = w.
Proof.
  intros Hl. destruct w as [f r h o p]; unfold set_held; simpl in *.
  f_equal. set_solver.
Qed.

Lemma is_dir_lookup (f : gmap string node) p :
  is_dir f p = true → p ≠ "" → f !! p = Some Dir.
Proof.
  unfold is_dir. destruct (f !! p) as [[|c]|]; try done;
    intros H%bool_decide_eq_true; congruence.
Qed.

Lemma tree_dir (f : gmap string node) p q :
  tree f → is_Some (f !! q) → p ∈ ancestors q → is_dir f p = true.
Proof.
  intros Ht [n Hq] Hp. specialize (Ht q n Hq). simpl in Ht.
  rewrite Forall_forall in Ht. by apply Ht.
Qed.

Lemma mkdir_chain_dirs ps (f : gmap string node) :
  Forall (λ p, is_dir f p = true) ps → mkdir_chain ps f = Ok f.
Proof.
  induction 1 as [|p ps Hp _ IH]; [done|]. simpl.
  destruct (decide (p = "")) as [|Hne]; [done|].
  by rewrite (is_dir_lookup _ _ Hp Hne).
Qed.

Lemma os_makedirs_noop path (w : world) :
  Forall (λ p, is_dir (fs w) p = true) (ancestors path ++ [path]) →
  os_makedirs path w = (Ok tt, w).
Proof.
  intros H. unfold os_makedirs. rewrite (mkdir_chain_dirs _ _ H).
  by rewrite set_fs_same.
Qed.

End Basics.

Section Makedirs.
Context `{Ext : Externals}.

Lemma mkdir_chain_spec ps (f f' : gmap string node) :
  mkdir_chain ps f = Ok f' →
  (∀ q, f' !! q = f !! q ∨ (f !! q = None ∧ q ∈ ps ∧ q ≠ "" ∧ f' !! q = Some Dir)) ∧
  (∀ p, p ∈ ps → is_dir f' p = true).
Proof.
  revert f. induction ps as [|p ps IH]; simpl; intros f H.
  { injection H as <-. split; [auto|]. intros p Hp. by apply elem_of_nil in Hp. }
  destruct (decide (p = "")) as [->|Hne].
  { destruct (IH _ H) as [IH1 IH2]. split.
    - intros q. destruct (IH1 q) as [?|(?&?&?&?)]; [by left|].
      right. repeat split; auto. by apply elem_of_cons; right.
    - intros p [->|Hp]%elem_of_cons; [|by apply IH2].
      unfold is_dir. destruct (f' !! ""); [destruct n|]; by try apply bool_decide_eq_true. }
  assert (Hkeep : ∀ g, mkdir_chain ps g = Ok f' → g !! p = Some Dir → is_dir f' p = true).
  { intros g Hg Hgp. destruct (IH _ Hg) as [IH1 _].
    unfold is_dir. destruct (IH1 p) as [->|(Hn&_)]; [by rewrite Hgp|congruence]. }
  destruct (f !! p) as [[|c]|] eqn:Hp.
  - destruct (IH _ H) as [IH1 IH2]. split.
    + intros q. destruct (IH1 q) as [?|(?&?&?&?)]; [by left|].
      right. repeat split; auto. by apply elem_of_cons; right.
    + intros p' [->|Hp']%elem_of_cons; [by eapply Hkeep|by apply IH2].
  - by destruct ps.
  - destruct (IH _ H) as [IH1 IH2]. split.
    + intros q. destruct (decide (q = p)) as [->|Hqp].
      * right. repeat split; auto; [by apply elem_of_cons; left|].
        destruct (IH1 p) as [->|(Hn&_)]; [by rewrite lookup_insert_eq|].
        by rewrite lookup_insert_eq in Hn.
      * destruct (IH1 q) as [Hq|(Hq&?&?&?)]; rewrite lookup_insert_ne in Hq by done.
        -- by left.
        -- right. repeat split; auto. by apply elem_of_cons; right.
    + intros p' [->|Hp']%elem_of_cons; [|by apply IH2].
      eapply Hkeep; [done|]. by rewrite lookup_insert_eq.
Qed.

Lemma mkdir_chain_keeps ps (f f' : gmap string node) q :
  mkdir_chain ps f = Ok f' → is_Some (f !! q) → f' !! q = f !! q.
Proof.
  intros H [n Hq]. destruct (proj1 (mkdir_chain_spec _ _ _ H) q) as [|[? _]]; congruence.
Qed.

Lemma mkdir_chain_no_block ps (f : gmap string node) : mkdir_chain ps f ≠ Block.
Proof.
  revert f; induction ps as [|p ps IH]; simpl; intros f; [done|].
  destruct (decide _); [apply IH|].
  destruct (f !! p) as [[|c]|]; try apply IH. by destruct ps.
Qed.

(** [os.makedirs] either fails and changes nothing, or only adds directories. *)
Lemma os_makedirs_cases path (w : world) :
  (∃ e, os_makedirs path w = (Raise e, w)) ∨
  (∃ f', os_makedirs path w = (Ok tt, set_fs f' w) ∧
         mkdir_chain (ancestors path ++ [path]) (fs w) = Ok f').
Proof.
  unfold os_makedirs.
  destruct (mkdir_chain _ _) as [f'|e|] eqn:H; [right; eauto|left; eauto|].
  by apply mkdir_chain_no_block in H.
Qed.

End Makedirs.

Section MarkerPresent.
Context `{Ext : Externals}.

Lemma bind_ok {A B} (m : M A) (k : A → M B) w a w' :
  m w = (Ok a, w') → bind m k w = k a w'.
Proof. unfold bind. by intros ->. Qed.

Lemma bind_raise {A B} (m : M A) (k : A → M B) w e w' :
  m w = (Raise e, w') → bind m k w = (Raise e, w').
Proof. unfold bind. by intros ->. Qed.

Lemma os_path_exists_true path (w : world) :
  is_Some (fs w !! path) → os_path_exists path w = (Ok true, w).
Proof. intros H. unfold os_path_exists. by rewrite bool_decide_eq_true_2. Qed.

Lemma os_path_exists_false path (w : world) :
  fs w !! path = None → os_path_exists path w = (Ok false, w).
Proof.
  intros H. unfold os_path_exists. rewrite bool_decide_eq_false_2; [done|].
  rewrite H. by intros [? ?].
Qed.

(** With the marker in place the critical section stops after its check:
    it may create the download directory and does nothing else. *)
Lemma critical_present R (w : world) :
  present R w →
  (∃ e, critical R w = (Raise e, w)) ∨
  (∃ f', critical R w = (Ok tt, set_fs f' w) ∧
         mkdir_chain (ancestors (fetch_dir R) ++ [fetch_dir R]) (fs w) = Ok f').
Proof.
  intros Hp.
  destruct (os_makedirs_cases (fetch_dir R) w) as [[e He]|(f'&Hf&Hc)].
  - left. exists e. destruct R; unfold critical, base_dataset_critical,
      datawarehouse_critical; by rewrite (bind_raise _ _ _ _ _ He).
  - right. exists f'. split; [|done].
    assert (Hm : is_Some (fs (set_fs f' w) !! marker R)).
    { simpl. rewrite (mkdir_chain_keeps _ _ _ _ Hc Hp). exact Hp. }
    destruct R; unfold critical, base_dataset_critical, datawarehouse_critical;
      rewrite (bind_ok _ _ _ _ _ Hf);
      by rewrite (bind_ok _ _ _ _ _ (os_path_exists_true _ _ Hm)).
Qed.

Lemma ensure_unfold R : ensure R = with_lock (resource_lock R) (critical R).
Proof. by destruct R. Qed.

End MarkerPresent.

Section MarkerAbsent.
Context `{Ext : Externals}.

Lemma subprocess_run_started args dir (w : world) :
  is_dir (fs w) dir = true →
  ∃ code f' r',
    spawn args dir (fs w, remote w) = (code, (f', r')) ∧
    subprocess_run args dir w =
      (if decide (code = 0%Z) then Ok tt
       else Raise (error CalledProcessError (hd "" args)),
       set_fs f' (set_remote r' (add_proc {| argv := args; cwd := dir; seen := fs w |} w))).
Proof.
  intros Hd. unfold subprocess_run. rewrite Hd.
  destruct (spawn args dir (fs w, remote w)) as [code [f' r']].
  exists code, f', r'. split; [done|]. by destruct (decide (code = 0%Z)).
Qed.

(** The filesystem on which the download of [R] starts, given the
    filesystem [f1] that [os.makedirs] left. *)
Lemma critical_absent R (w : world) f1 :
  fs w !! marker R = None →
  mkdir_chain (ancestors (fetch_dir R) ++ [fetch_dir R]) (fs w) = Ok f1 →
  (∀ c, fs w !! storage R ≠ Some (File c)) →
  ∃ l1 l2,
    critical R w =
      (subprocess_run (fetch_argv R) (fetch_dir R) ;; print l2)
        (add_out l1 (set_fs
           match f1 !! storage R with
           | Some Dir => filter (outside (storage R)) f1
           | _ => f1
           end w)).
Proof.
  intros Hm Hc Hloc.
  assert (Hmk : os_makedirs (fetch_dir R) w = (Ok tt, set_fs f1 w)).
  { unfold os_makedirs. by rewrite Hc. }
  destruct (mkdir_chain_spec _ _ _ Hc) as [Hsp _].
  assert (Hm1 : f1 !! marker R = None).
  { destruct (Hsp (marker R)) as [->|(_&Hin&_)]; [done|].
    destruct R; vm_compute in Hin; set_solver. }
  destruct R; unfold critical, base_dataset_critical, datawarehouse_critical;
    rewrite (bind_ok _ _ _ _ _ Hmk);
    rewrite (bind_ok _ _ _ _ _ (os_path_exists_false _ (set_fs f1 w) Hm1)).
  - eexists _, _. change (storage BaseDataset) with (marker BaseDataset).
    rewrite Hm1. reflexivity.
  - eexists _, _. unfold bind at 1. unfold print at 1. simpl storage.
    assert (Hl1 : ∀ c, f1 !! "data/3rd-party/datawarehouse" ≠ Some (File c)).
    { intros c Hf. destruct (Hsp "data/3rd-party/datawarehouse") as [He|(_&_&_&He)];
        [|congruence]. rewrite Hf in He. by eapply Hloc. }
    destruct (f1 !! "data/3rd-party/datawarehouse") as [[|c]|] eqn:Hl.
    + erewrite (bind_ok (os_path_exists _)); [|by apply os_path_exists_true; simpl; rewrite Hl].
      unfold bind at 1. unfold shutil_rmtree. simpl fs. rewrite Hl. reflexivity.
    + by destruct (Hl1 c).
    + erewrite (bind_ok (os_path_exists _)); [|by apply os_path_exists_false].
      reflexivity.
Qed.

End MarkerAbsent.

Section Idempotence.
Context `{Ext : Externals}.

Lemma critical_fetches R (w : world) f1 :
  fs w !! marker R = None →
  mkdir_chain (ancestors (fetch_dir R) ++ [fetch_dir R]) (fs w) = Ok f1 →
  (∀ c, fs w !! storage R ≠ Some (File c)) →
  let f2 := match f1 !! storage R with
            | Some Dir => filter (outside (storage R)) f1
            | _ => f1
            end in
  ∃ code f' r' w',
    spawn (fetch_argv R) (fetch_dir R) (f2, remote w) = (code, (f', r')) ∧
    critical R w =
      (if decide (code = 0%Z) then Ok tt
       else Raise (error CalledProcessError (hd "" (fetch_argv R))), w') ∧
    fs w' = f' ∧ remote w' = r' ∧ held w' = held w ∧
    procs w' = procs w ++ [{| argv := fetch_argv R; cwd := fetch_dir R; seen := f2 |}].
Proof.
  intros Hm Hc Hloc f2.
  destruct (critical_absent R w f1 Hm Hc Hloc) as (l1 & l2 & Heq). fold f2 in Heq.
  assert (Hd : is_dir f2 (fetch_dir R) = true).
  { destruct (mkdir_chain_spec _ _ _ Hc) as [_ Hd].
    assert (Hd1 : is_dir f1 (fetch_dir R) = true) by (apply Hd; set_solver).
    subst f2. destruct (f1 !! storage R) as [[|c]|]; try done.
    apply is_dir_lookup in Hd1; [|by destruct R].
    assert (Hf : filter (outside (storage R)) f1 !! fetch_dir R = Some Dir).
    { apply map_lookup_filter_Some. split; [done|]. by destruct R. }
    unfold is_dir. by rewrite Hf. }
  destruct (subprocess_run_started (fetch_argv R) (fetch_dir R)
              (add_out l1 (set_fs f2 w)) Hd) as (code & f' & r' & Hs & Hrun).
  simpl fs in Hs. simpl remote in Hs.
  exists code, f', r'. rewrite Heq. unfold bind at 1. rewrite Hrun.
  destruct (decide (code = 0%Z)); eexists; (split; [exact Hs|]); (split; [reflexivity|]);
    by simpl.
Qed.

(** C7.  Idempotence of [ensure]: for either resource, a call made when
    the resource is already present (its marker exists) starts no child
    process at all, so in particular no download; the list of downloads
    of that resource is unchanged and the resource is still present
    afterwards.  A second call after a first one that left the marker in
    place is the case [w := ] the world the first call returned. *)
Theorem ensure_present_no_fetch (R : resource) (w : world) :
  present R w →
  procs (ensure R w).2 = procs w ∧
  fetches R (ensure R w).2 = fetches R w ∧
  present R (ensure R w).2.
Proof.
  intros Hp. rewrite ensure_unfold. unfold with_lock.
  destruct (decide (resource_lock R ∈ held w)) as [|Hfree]; [done|].
  set (w1 := set_held _ w).
  assert (Hp1 : present R w1) by exact Hp.
  destruct (critical_present R w1 Hp1) as [[e ->]|(f' & -> & Hc)]; simpl.
  - done.
  - unfold fetches, present; simpl. repeat split; try done.
    rewrite (mkdir_chain_keeps _ _ _ _ Hc Hp). exact Hp.
Qed.

End Idempotence.

Section StaleCopy.
Context `{Ext : Externals}.

(** C3, as amended.  The two resources do not follow one contract.
    When the marker is absent (and the lock is free, the download
    directory can be created and the path that the download creates is
    not a plain file), [ensure] starts exactly one child process, the
    download.  For the checkout it starts it on a filesystem in which
    neither the storage location nor anything below it exists: a prior
    copy has been removed entirely before the fetch (the
    [shutil.rmtree] of lines 20-21), and everything outside it is still
    there.  For the base dataset there is no removal step (lines 31-44):
    the download starts with the storage location, the data directory,
    in place, and with every path that existed before the call,
    whatever an earlier attempt left there included. *)
Theorem stale_copy_removed_before_fetch (R : resource) (w : world) :
  tree (fs w) →
  resource_lock R ∉ held w →
  fs w !! marker R = None →
  (os_makedirs (fetch_dir R) w).1 = Ok tt →
  (∀ c, fs w !! storage R ≠ Some (File c)) →
  ∃ p, procs (ensure R w).2 = procs w ++ [p] ∧
       argv p = fetch_argv R ∧ cwd p = fetch_dir R ∧
       match R with
       | Datawarehouse =>
           seen p !! storage_location R = None ∧
           (∀ q, under (storage_location R) q = true → seen p !! q = None) ∧
           (∀ q, q ≠ storage_location R → under (storage_location R) q = false →
                 is_Some (fs w !! q) → seen p !! q = fs w !! q)
       | BaseDataset =>
           seen p !! storage_location R = Some Dir ∧
           (∀ q, is_Some (fs w !! q) → seen p !! q = fs w !! q)
       end.
Proof.
  intros Ht Hfree Hm Hmk Hloc.
  destruct (os_makedirs_cases (fetch_dir R) w) as [[e He]|(f1 & He & Hc)];
    [by rewrite He in Hmk|]. clear Hmk He.
  rewrite ensure_unfold. unfold with_lock. rewrite decide_False by done.
  set (w1 := set_held _ w).
  destruct (critical_fetches R w1 f1 Hm Hc Hloc) as (code & f' & r' & w' & _ & -> & _ & _ & _ & Hp).
  eexists. split; [exact Hp|]. simpl. do 2 (split; [done|]).
  destruct (mkdir_chain_spec _ _ _ Hc) as [Hsp Hdirs]. simpl in Hsp.
  assert (Hnew : ∀ q, q ∈ ancestors (fetch_dir R) ++ [fetch_dir R] →
                      q ≠ storage R ∧ under (storage R) q = false).
  { intros q Hq. destruct R; vm_compute in Hq; set_solver. }
  destruct R.
  - (* the base dataset: nothing is removed *)
    assert (Hm1 : f1 !! storage BaseDataset = None).
    { destruct (Hsp (storage BaseDataset)) as [Hk|(_&Hin&_)]; [by rewrite Hk|].
      by destruct (Hnew _ Hin). }
    rewrite Hm1. split.
    + apply is_dir_lookup; [|done]. apply Hdirs. by apply list_elem_of_singleton.
    + intros q [n Hq]. destruct (Hsp q) as [Hk|(Hn&_)]; congruence.
  - (* the checkout: lines 20-21 *)
    change (storage_location Datawarehouse) with (storage Datawarehouse).
    destruct (f1 !! storage Datawarehouse) as [[|c]|] eqn:Hl.
    + split; [|split].
      * apply map_lookup_filter_None. right. intros n _ [Hne _]. by apply Hne.
      * intros q Hq. apply map_lookup_filter_None. right. intros n _ [_ Hu].
        change (under (storage Datawarehouse) q = false) in Hu. congruence.
      * intros q Hne Hu [n Hq].
        destruct (Hsp q) as [Hk|(Hn&_)]; [|congruence].
        rewrite Hq. apply map_lookup_filter_Some. split; [congruence|]. by split.
    + exfalso. destruct (Hsp (storage Datawarehouse)) as [Hk|(_&_&_&Hk)]; [|congruence].
      rewrite Hl in Hk. by eapply Hloc.
    + split; [done|]. split.
      * intros q Hq. destruct (f1 !! q) as [n|] eqn:Hfq; [exfalso|done].
        destruct (Hsp q) as [Hk|(_&Hin&_)].
        -- assert (Hd : is_dir (fs w) (storage Datawarehouse) = true).
           { eapply tree_dir; [done| |].
             - rewrite <- Hk, Hfq. by eexists.
             - by apply bool_decide_eq_true in Hq. }
           apply is_dir_lookup in Hd; [|done].
           destruct (Hsp (storage Datawarehouse)) as [Hk'|(Hn&_)]; congruence.
        -- destruct (Hnew q Hin). congruence.
      * intros q _ _ [n Hq]. destruct (Hsp q) as [Hk|(Hn&_)]; congruence.
Qed.

End StaleCopy.

Section Resumability.
Context `{Ext : Externals}.

Lemma ancestors_h5 z :
  ancestors (h5_path z) =
  "data" :: "data/skewed" :: ancestors_from "data/skewed/HiggsML_TES_" (z +:+ ".h5").
Proof. reflexivity. Qed.

Lemma ancestors_csv z :
  ancestors (csv_path z) =
  "data" :: "data/skewed" :: ancestors_from "data/skewed/HiggsML_TES_" (z +:+ ".csv.gz").
Proof. reflexivity. Qed.

(** With the marker in place, on a tree, with the lock free, [ensure]
    changes nothing at all. *)
Lemma ensure_present_noop R (w : world) :
  tree (fs w) → resource_lock R ∉ held w → present R w →
  ensure R w = (Ok tt, w).
Proof.
  intros Ht Hfree Hp. rewrite ensure_unfold. unfold with_lock.
  rewrite decide_False by done. set (w1 := set_held _ w).
  assert (Hmk : os_makedirs (fetch_dir R) w1 = (Ok tt, w1)).
  { apply os_makedirs_noop. apply Forall_forall. intros p Hin.
    apply (tree_dir (fs w) p (marker R)); [done|done|].
    destruct R; vm_compute in Hin |- *; set_solver. }
  assert (Hc : critical R w1 = (Ok tt, w1)).
  { destruct R; unfold critical, base_dataset_critical, datawarehouse_critical;
      rewrite (bind_ok _ _ _ _ _ Hmk);
      by rewrite (bind_ok _ _ _ _ _ (os_path_exists_true _ w1 Hp)). }
  rewrite Hc. subst w1. by rewrite release_acquire.
Qed.

(** C2, as amended.  If the durable file for [z] exists when
    [ensure_skewed_dataset_prepared z] is called, and moreover both
    resources are already present, the filesystem is a tree and no lock
    is held, then the call returns successfully and leaves the whole
    world as it was: no child process (no fetch, no transform), no
    filesystem write, no output. *)
Theorem prepare_skips_when_durable_and_resources_present (z : string) (w : world) :
  tree (fs w) →
  held w = ∅ →
  present BaseDataset w →
  present Datawarehouse w →
  is_Some (fs w !! h5_path z) →
  ensure_skewed_dataset_prepared z w = (Ok tt, w).
Proof.
  intros Ht Hh Hb Hd Hz. unfold ensure_skewed_dataset_prepared.
  assert (Hfree : ∀ l, l ∉ held w) by (intros l; rewrite Hh; set_solver).
  rewrite (bind_ok _ _ _ _ _ (ensure_present_noop BaseDataset w Ht (Hfree _) Hb)).
  rewrite (bind_ok _ _ _ _ _ (ensure_present_noop Datawarehouse w Ht (Hfree _) Hd)).
  erewrite (bind_ok (os_makedirs _)); cycle 1.
  { apply os_makedirs_noop. apply Forall_forall. intros p Hin.
    apply (tree_dir (fs w) p (h5_path z)); [done|done|].
    rewrite ancestors_h5. vm_compute in Hin. set_solver. }
  by rewrite (bind_ok _ _ _ _ _ (os_path_exists_true _ w Hz)).
Qed.

End Resumability.

Section Pipeline.
Context `{Ext : Externals}.

Lemma bind_inv_ok {A B} (m : M A) (k : A → M B) w b w' :
  bind m k w = (Ok b, w') → ∃ a w1, m w = (Ok a, w1) ∧ k a w1 = (Ok b, w').
Proof. unfold bind. destruct (m w) as [[a|e|] w1]; [eauto|done|done]. Qed.

Lemma lift_inv_ok {A} (r : result A) (w : world) a w' :
  lift r w = (Ok a, w') → r = Ok a ∧ w' = w.
Proof. unfold lift. by intros [= -> ->]. Qed.

Lemma pd_read_csv_inv path (w : world) df w' :
  pd_read_csv path w = (Ok df, w') →
  w' = w ∧ fs w !! path = Some (File (Csv df)) ∧ rectangular df = true.
Proof.
  unfold pd_read_csv. destruct (fs w !! path) as [[|[df'| |]]|]; try done.
  destruct (rectangular df') eqn:Hr; [|done]. by intros [= -> ->].
Qed.

Lemma to_hdf_inv df path key complib complevel (w : world) w' :
  to_hdf df path key complib complevel w = (Ok tt, w') →
  ∃ store, w' = set_fs (<[path := File (Hdf5 store)]> (fs w)) w ∧
           store !! key = Some df.
Proof.
  unfold to_hdf. destruct (fs w !! path) as [[|[ | store|]]|]; try done.
  - intros [= <-]. eexists. split; [done|]. by rewrite lookup_insert_eq.
  - destruct (is_dir _ _); [|done]. intros [= <-]. eexists. split; [done|].
    by rewrite lookup_singleton_eq.
Qed.

Lemma os_remove_inv path (w : world) w' :
  os_remove path w = (Ok tt, w') → w' = set_fs (delete path (fs w)) w.
Proof.
  unfold os_remove. destruct (fs w !! path) as [[|c]|]; try done. by intros [= <-].
Qed.

(** What a successful run of the pipeline has done, when the durable file
    was not there at the check of line 65: [f] is the filesystem from
    which the intermediate table [df] was read. *)
Lemma prepared_inv z (w w' : world) :
  ensure_skewed_dataset_prepared z w = (Ok tt, w') →
  durable_at_check z w = None →
  ∃ f df series mask v store,
    f !! csv_path z = Some (File (Csv df)) ∧ rectangular df = true ∧
    getitem df "PRI_tau_pt" = Ok series ∧
    series_gt_22 series = Ok mask ∧
    float z = Ok v ∧
    fs w' = delete (csv_path z) (<[h5_path z := File (Hdf5 store)]> f) ∧
    store !! "data_syst" = Some (setitem (getitem_mask df mask) "Z" (CFloat v)).
Proof.
  unfold ensure_skewed_dataset_prepared, durable_at_check, prerequisites.
  intros H Hd.
  apply bind_inv_ok in H as ([] & w1 & H1 & H).
  apply bind_inv_ok in H as ([] & w2 & H2 & H).
  apply bind_inv_ok in H as ([] & w3 & H3 & H).
  rewrite (bind_ok _ _ _ _ _ H1), (bind_ok _ _ _ _ _ H2), H3 in Hd. simpl in Hd.
  rewrite (bind_ok _ _ _ _ _ (os_path_exists_false _ w3 Hd)) in H.
  apply bind_inv_ok in H as ([] & w4 & _ & H).
  apply bind_inv_ok in H as (b & w5 & _ & H).
  apply bind_inv_ok in H as ([] & w6 & _ & H).
  apply bind_inv_ok in H as ([] & w7 & _ & H).
  apply bind_inv_ok in H as (df & w8 & Hr & H).
  apply pd_read_csv_inv in Hr as (-> & Hcsv & Hrect).
  apply bind_inv_ok in H as ([] & w9 & Hp & H). injection Hp as <-.
  apply bind_inv_ok in H as (series & w10 & [Hs ->]%lift_inv_ok & H).
  apply bind_inv_ok in H as (mask & w11 & [Hmask ->]%lift_inv_ok & H).
  apply bind_inv_ok in H as (v & w12 & [Hv ->]%lift_inv_ok & H).
  apply bind_inv_ok in H as ([] & w13 & Hp & H). injection Hp as <-.
  apply bind_inv_ok in H as ([] & w14 & (store & -> & Hst)%to_hdf_inv & H).
  apply bind_inv_ok in H as ([] & w15 & ->%os_remove_inv & H).
  injection H as <-. simpl.
  exists (fs w7), df, series, mask, v, store. done.
Qed.

(** A run that is not stopped at line 66 is [before_read] followed by
    lines 82-89. *)
Lemma prepare_after_before_read z (w : world) :
  durable_at_check z w = None →
  ensure_skewed_dataset_prepared z w =
    (before_read z ;;
     df <- pd_read_csv (csv_path z) ;;
     print (Msg "Applying filter...") ;;
     series <- lift (getitem df "PRI_tau_pt") ;;
     mask <- lift (series_gt_22 series) ;;
     let df := getitem_mask df mask in
     v <- lift (float z) ;;
     let df := setitem df "Z" (CFloat v) in
     print (Msg "Writing HDF5...") ;;
     to_hdf df (h5_path z) "data_syst" "bzip2" 3 ;;
     os_remove (csv_path z) ;;
     print (Prepared z (length (rows df)))) w.
Proof.
  unfold durable_at_check, prerequisites, ensure_skewed_dataset_prepared, before_read.
  intros Hd. unfold bind in *.
  destruct (ensure_base_dataset_downloaded w) as [[[]|e|] w1]; [|done|done].
  destruct (ensure_datawarehouse_downloaded w1) as [[[]|e|] w2]; [|done|done].
  destruct (os_makedirs "data/skewed" w2) as [[[]|e|] w3]; [|done|done].
  simpl in Hd. unfold os_path_exists, print. cbn [fs add_out].
  rewrite (bool_decide_eq_false_2 (is_Some (fs w3 !! h5_path z)))
    by (rewrite Hd; by intros [? ?]).
  destruct (bool_decide (is_Some (fs w3 !! csv_path z))); cbn [negb]; [done|].
  by destruct (subprocess_run _ _ _) as [[[]|e|] w4].
Qed.

(** What a successful run of the pipeline has done, in terms of the
    filesystem that [before_read] leaves. *)
Lemma prepared_read z (w w' : world) :
  ensure_skewed_dataset_prepared z w = (Ok tt, w') →
  durable_at_check z w = None →
  ∃ df series mask v store,
    fs (before_read z w).2 !! csv_path z = Some (File (Csv df)) ∧
    rectangular df = true ∧
    getitem df "PRI_tau_pt" = Ok series ∧
    series_gt_22 series = Ok mask ∧
    float z = Ok v ∧
    fs w' = delete (csv_path z)
              (<[h5_path z := File (Hdf5 store)]> (fs (before_read z w).2)) ∧
    store !! "data_syst" = Some (setitem (getitem_mask df mask) "Z" (CFloat v)).
Proof.
  intros H Hd. rewrite (prepare_after_before_read z w Hd) in H.
  apply bind_inv_ok in H as ([] & w7 & -> & H).
  apply bind_inv_ok in H as (df & w8 & Hr & H).
  apply pd_read_csv_inv in Hr as (-> & Hcsv & Hrect).
  apply bind_inv_ok in H as ([] & w9 & Hp & H). injection Hp as <-.
  apply bind_inv_ok in H as (series & w10 & [Hs ->]%lift_inv_ok & H).
  apply bind_inv_ok in H as (mask & w11 & [Hmask ->]%lift_inv_ok & H).
  apply bind_inv_ok in H as (v & w12 & [Hv ->]%lift_inv_ok & H).
  apply bind_inv_ok in H as ([] & w13 & Hp & H). injection Hp as <-.
  apply bind_inv_ok in H as ([] & w14 & (store & -> & Hst)%to_hdf_inv & H).
  apply bind_inv_ok in H as ([] & w15 & ->%os_remove_inv & H).
  injection H as <-. simpl.
  exists df, series, mask, v, store. done.
Qed.

End Pipeline.

Section Tables.

Lemma csv_h5_distinct z : csv_path z ≠ h5_path z.
Proof.
  unfold csv_path, h5_path, os_path_realpath. intros H.
  apply (inj (String.app _)) in H.
  induction z as [|c z IH]; simpl in H; [done|]. injection H as H. by apply IH.
Qed.

Lemma index_of_lt name cols j : index_of name cols = Some j → j < length cols.
Proof.
  revert j; induction cols as [|c cols IH]; simpl; intros j; [done|].
  destruct (decide (c = name)); [intros [= <-]; lia|].
  destruct (index_of name cols) as [i|]; simpl; [|done].
  intros [= <-]. specialize (IH i eq_refl). lia.
Qed.

Lemma index_of_lookup name cols j : index_of name cols = Some j → cols !! j = Some name.
Proof.
  revert j; induction cols as [|c cols IH]; simpl; intros j; [done|].
  destruct (decide (c = name)) as [->|]; [by intros [= <-]|].
  destruct (index_of name cols) as [i|]; simpl; [|done].
  intros [= <-]. by apply IH.
Qed.

Lemma index_of_app_l name cols more j :
  index_of name cols = Some j → index_of name (cols ++ more) = Some j.
Proof.
  revert j; induction cols as [|c cols IH]; simpl; intros j; [done|].
  destruct (decide (c = name)); [done|].
  destruct (index_of name cols) as [i|]; simpl; [|done].
  intros [= <-]. by rewrite (IH i eq_refl).
Qed.

Lemma index_of_app_new name cols :
  index_of name cols = None → index_of name (cols ++ [name]) = Some (length cols).
Proof.
  induction cols as [|c cols IH]; simpl; [by rewrite decide_True|].
  destruct (decide (c = name)); [done|].
  destruct (index_of name cols) as [i|]; simpl; [done|].
  intros _. by rewrite IH.
Qed.

Lemma series_gt_22_spec s mask :
  series_gt_22 s = Ok mask → Forall2 (λ c b, cell_gt_22 c = Ok b) s mask.
Proof.
  revert mask; induction s as [|c s IH]; simpl; intros mask.
  { intros [= <-]. constructor. }
  destruct (cell_gt_22 c) as [b|e|] eqn:Hc; simpl; try done.
  destruct (series_gt_22 s) as [bs|e|]; simpl; try done.
  intros [= <-]. constructor; auto.
Qed.

Lemma getitem_spec df name s :
  getitem df name = Ok s →
  ∃ j, index_of name (columns df) = Some j ∧
       Forall2 (λ (row : list cell) c, row !! j = Some c) (rows df) s.
Proof.
  unfold getitem. destruct (index_of name (columns df)) as [j|]; [|done].
  destruct (mapM _ (rows df)) as [cs|] eqn:Hm; [|done].
  intros [= <-]. exists j. split; [done|]. by apply mapM_Some.
Qed.

Lemma select_spec {A} (P : A → bool → Prop) xs mask :
  Forall2 P xs mask → Forall (λ x, P x true) (select xs mask).
Proof.
  induction 1 as [|x b xs mask Hx _ IH]; simpl; [constructor|].
  destruct b; [by constructor|done].
Qed.

Lemma select_subset {A} (xs : list A) mask : select xs mask ⊆ xs.
Proof.
  revert mask; induction xs as [|x xs IH]; intros [|[] mask]; simpl;
    try apply list_subseteq_nil.
  - intros y [->|Hy]%elem_of_cons; [left|right; by eapply IH].
  - intros y Hy. right. by eapply IH.
Qed.

Lemma select_length {A} (xs : list A) mask : length (select xs mask) ≤ length xs.
Proof.
  revert mask; induction xs as [|x xs IH]; intros [|[] mask]; simpl; try lia;
    specialize (IH mask); lia.
Qed.

Lemma compare_cont_flip m1 m2 :
  Pos.compare_cont Eq m2 m1 = CompOpp (Pos.compare_cont Eq m1 m2).
Proof. by rewrite (Pos.compare_cont_antisym m1 m2 Eq). Qed.

(** IEEE comparison: [x < y] excludes [y <= x]. *)
Lemma SFltb_not_SFleb x y : SFltb x y = true → SFleb y x = false.
Proof.
  unfold SFltb, SFleb, SFcompare.
  destruct x as [[]|[]| |[] m1 e1], y as [[]|[]| |[] m2 e2]; try done.
  - rewrite (Z.compare_antisym e1 e2). destruct (e1 ?= e2)%Z; try done.
    rewrite (compare_cont_flip m1 m2).
    by destruct (Pos.compare_cont Eq m1 m2).
  - rewrite (Z.compare_antisym e1 e2). destruct (e1 ?= e2)%Z; try done.
    rewrite (compare_cont_flip m1 m2).
    by destruct (Pos.compare_cont Eq m1 m2).
Qed.

Lemma gt_22_not_le c : cell_gt_22 c = Ok true → cell_le_22 c = Ok false.
Proof.
  destruct c as [f|n|s]; cbn [cell_gt_22 cell_le_22]; [| |done].
  - intros [= H]. f_equal. by apply SFltb_not_SFleb.
  - intros [= H%Z.ltb_lt]. f_equal. by apply Z.leb_gt.
Qed.

End Tables.

Section Filtering.

Lemma rectangular_rows df row :
  rectangular df = true → row ∈ rows df → length row = length (columns df).
Proof.
  unfold rectangular. rewrite forallb_forall. intros H Hin.
  apply Nat.eqb_eq, H. by apply list_elem_of_In.
Qed.

Lemma setitem_rows_length df name v :
  length (rows (setitem df name v)) = length (rows df).
Proof.
  unfold setitem. destruct (index_of name (columns df)); simpl; by rewrite length_fmap.
Qed.

(** What lines 84-85 make of a table. *)
Lemma pipeline_rows df series mask v :
  rectangular df = true →
  getitem df "PRI_tau_pt" = Ok series →
  series_gt_22 series = Ok mask →
  let df' := setitem (getitem_mask df mask) "Z" (CFloat v) in
  Forall (λ row, (∃ c, value_at df' "PRI_tau_pt" row = Some c ∧ cell_gt_22 c = Ok true) ∧
                 value_at df' "Z" row = Some (CFloat v)) (rows df') ∧
  length (rows df') ≤ length (rows df).
Proof.
  intros Hrect (j & Hj & Hcol)%getitem_spec Hmask%series_gt_22_spec df'.
  split; [|subst df'; rewrite setitem_rows_length; apply select_length].
  assert (Hsel : Forall (λ row : list cell,
            length row = length (columns df) ∧
            ∃ c, row !! j = Some c ∧ cell_gt_22 c = Ok true) (select (rows df) mask)).
  { apply Forall_and. split.
    - apply Forall_forall. intros row Hin%select_subset. by apply rectangular_rows.
    - apply (select_spec (λ (row : list cell) b, ∃ c, row !! j = Some c ∧ cell_gt_22 c = Ok b)).
      clear -Hcol Hmask. revert mask Hmask.
      induction Hcol as [|row c rows' s Hrow _ IH]; intros mask Hmask;
        inversion Hmask; subst; constructor; eauto. }
  subst df'. unfold setitem, value_at. simpl columns.
  destruct (index_of "Z" (columns df)) as [jz|] eqn:Hz; simpl.
  - rewrite Hj, Hz. simpl. apply Forall_fmap. eapply Forall_impl; [exact Hsel|].
    intros row (Hlen & c & Hc & Hgt). simpl. split.
    + exists c. split; [|done]. rewrite list_lookup_insert_ne; [done|].
      intros ->. apply index_of_lookup in Hj, Hz. congruence.
    + apply list_lookup_insert_eq. rewrite Hlen. by eapply index_of_lt.
  - rewrite (index_of_app_l _ _ _ _ Hj), (index_of_app_new _ _ Hz). simpl.
    apply Forall_fmap. eapply Forall_impl; [exact Hsel|].
    intros row (Hlen & c & Hc & Hgt). simpl. split.
    + exists c. split; [|done]. by apply lookup_app_l_Some.
    + rewrite <- Hlen. by rewrite list_lookup_middle.
Qed.

End Filtering.

Section PersistedTable.
Context `{Ext : Externals}.

(** C4.  Filter correctness.  Whenever [ensure_skewed_dataset_prepared z]
    succeeds and the durable file was not there at the check of line 65,
    let [df_in] be the table that line 82 reads: the one at the
    intermediate path on the filesystem that lines 57-81 leave.  The
    filesystem after the call is that filesystem with the durable file
    written and the intermediate file removed; the table [df_out] stored
    under [data_syst] in the durable file has, in every row, a
    [PRI_tau_pt] cell that is [> 22] and not [<= 22]; and [df_out] has at
    most as many rows as [df_in]. *)
Theorem filter_keeps_only_rows_above_22 (z : string) (w w' : world) :
  ensure_skewed_dataset_prepared z w = (Ok tt, w') →
  durable_at_check z w = None →
  ∃ df_in store df_out,
    fs (before_read z w).2 !! csv_path z = Some (File (Csv df_in)) ∧
    fs w' = delete (csv_path z)
              (<[h5_path z := File (Hdf5 store)]> (fs (before_read z w).2)) ∧
    stored (fs w') (h5_path z) "data_syst" = Some df_out ∧
    Forall (λ row, ∃ c, value_at df_out "PRI_tau_pt" row = Some c ∧
                        cell_gt_22 c = Ok true ∧ cell_le_22 c = Ok false)
           (rows df_out) ∧
    length (rows df_out) ≤ length (rows df_in).
Proof.
  intros H Hd.
  destruct (prepared_read z w w' H Hd)
    as (df & series & mask & v & store & Hcsv & Hrect & Hs & Hm & Hv & Hfs & Hst).
  destruct (pipeline_rows df series mask v Hrect Hs Hm) as [Hrows Hlen].
  eexists df, store, _. split; [done|]. split; [done|]. split; [|split; [|exact Hlen]].
  - unfold stored. rewrite Hfs, lookup_delete_ne by apply csv_h5_distinct.
    by rewrite lookup_insert_eq.
  - eapply Forall_impl; [exact Hrows|]. intros row [(c & Hc & Hgt) _].
    exists c. auto using gt_22_not_le.
Qed.

(** C5.  Augmentation correctness.  Under the same conditions, [float(z)]
    has a value [v], and every row of the stored table has the cell [v]
    in column [Z]. *)
Theorem every_row_carries_z (z : string) (w w' : world) :
  ensure_skewed_dataset_prepared z w = (Ok tt, w') →
  durable_at_check z w = None →
  ∃ v df_out,
    float z = Ok v ∧
    stored (fs w') (h5_path z) "data_syst" = Some df_out ∧
    Forall (λ row, value_at df_out "Z" row = Some (CFloat v)) (rows df_out).
Proof.
  intros H Hd.
  destruct (prepared_inv z w w' H Hd)
    as (f & df & series & mask & v & store & Hcsv & Hrect & Hs & Hm & Hv & Hfs & Hst).
  destruct (pipeline_rows df series mask v Hrect Hs Hm) as [Hrows _].
  eexists v, _. split; [done|]. split.
  - unfold stored. rewrite Hfs, lookup_delete_ne by apply csv_h5_distinct.
    by rewrite lookup_insert_eq.
  - eapply Forall_impl; [exact Hrows|]. by intros row [_ ?].
Qed.

End PersistedTable.


Section Runner.
Context `{Ext : Externals}.

Lemma isinstance_BaseException e : isinstance e BaseException = true.
Proof. destruct e as [[] msg]; reflexivity. Qed.

Lemma catch_cases {A B} (func : A → M B) args (w : world) :
  (∃ v w', func args w = (Ok v, w') ∧ catch func args w = (Ok None, w')) ∨
  (∃ e w', func args w = (Raise e, w') ∧
           catch func args w = (Ok (Some e), add_out (ExceptionLine e) w')) ∨
  (∃ w', func args w = (Block, w') ∧ catch func args w = (Block, w')).
Proof.
  unfold catch. destruct (func args w) as [[v|e|] w'].
  - left. eauto.
  - right. left. exists e, w'. by rewrite isinstance_BaseException.
  - right. right. eauto.
Qed.

Lemma log_nil (w : world) : log [] w = w.
Proof. destruct w; unfold log; simpl. by rewrite app_nil_r. Qed.

Lemma log_add_out l ls (w : world) : log ls (add_out l w) = log (l :: ls) w.
Proof. unfold log, add_out; simpl. by rewrite <- app_assoc. Qed.

(** The loop prints one line per success it meets and stops at the first
    fault it meets. *)
Lemma report_first_fault n i pre e z post (w : world) :
  Forall (λ x, x.1 = Ok None) pre →
  report n i (pre ++ (Ok (Some e), z) :: post) w =
    (Raise e, log (progress_lines n i pre.*2) w).
Proof.
  intros Hpre. revert i w. induction Hpre as [|[r z'] pre Hr _ IH]; intros i w; simpl.
  - by rewrite log_nil.
  - simpl in Hr. subst r. unfold bind, future_result, lift, print. simpl.
    fold (@bind Ext). rewrite IH. by rewrite log_add_out.
Qed.

Lemma report_all_fine n i completed (w : world) :
  Forall (λ x, x.1 = Ok None) completed →
  report n i completed w = (Ok tt, log (progress_lines n i completed.*2) w).
Proof.
  intros H. revert i w. induction H as [|[r z'] pre Hr _ IH]; intros i w; simpl.
  - by rewrite log_nil.
  - simpl in Hr. subst r. unfold bind, future_result, lift, print. simpl.
    fold (@bind Ext). rewrite IH. by rewrite log_add_out.
Qed.

Lemma first_fault_split (l : list (result (option exn) * string)) :
  Forall (λ x, ∃ o, x.1 = Ok o) l →
  Exists (λ x, ∃ e, x.1 = Ok (Some e)) l →
  ∃ pre e z post, l = pre ++ (Ok (Some e), z) :: post ∧
                  Forall (λ x, x.1 = Ok None) pre.
Proof.
  induction 1 as [|[r z] l [o Ho] _ IH]; intros Hex; [by apply Exists_nil in Hex|].
  simpl in Ho. subst r. destruct o as [e|].
  - exists [], e, z, l. by split.
  - apply Exists_cons in Hex as [[e He]|Hex]; [done|].
    destruct (IH Hex) as (pre & e & z' & post & -> & Hpre).
    exists ((Ok None, z) :: pre), e, z', post. split; [done|]. by constructor.
Qed.

Lemma progress_lines_bound n i zs j m z :
  Done j m z ∈ progress_lines n i zs → i < j ≤ i + length zs.
Proof.
  revert i. induction zs as [|z' zs IH]; simpl; intros i H; [by apply elem_of_nil in H|].
  apply elem_of_cons in H as [[= -> -> ->]|H]; [lia|]. apply IH in H. lia.
Qed.

Lemma as_completed_all {F} (futures : list F) :
  as_completed futures (seq 0 (length futures)) = futures.
Proof.
  unfold as_completed.
  enough (∀ pre l, omap (λ i, (pre ++ l) !! i) (seq (length pre) (length l)) = l) as H
    by apply (H []).
  intros pre l. revert pre. induction l as [|x l IH]; intros pre; simpl; [done|].
  rewrite list_lookup_middle by done. f_equal.
  specialize (IH (pre ++ [x])). rewrite length_app, <- app_assoc in IH. simpl in IH.
  by rewrite Nat.add_1_r in IH.
Qed.

Lemma as_completed_permutation {F} (futures : list F) order :
  order ≡ₚ seq 0 (length futures) → as_completed futures order ≡ₚ futures.
Proof.
  intros H. unfold as_completed. rewrite H. by rewrite <- (as_completed_all futures) at 2.
Qed.

Lemma as_completed_subset {F} (futures : list F) order :
  as_completed futures order ⊆ futures.
Proof.
  intros x (i & _ & Hx)%list_elem_of_omap. by eapply list_elem_of_lookup_2.
Qed.

End Runner.


Section Output.
Context `{Ext : Externals}.


Lemma grows_ret {A} (a : A) : grows (ret a).
Proof. by intros w. Qed.
Lemma grows_raise {A} e : grows (@raise _ A e).
Proof. by intros w. Qed.
Lemma grows_lift {A} (r : result A) : grows (lift r).
Proof. by intros w. Qed.
Lemma grows_print l : grows (print l).
Proof. intros w. by apply prefix_app_r. Qed.
Lemma grows_bind {A B} (m : M A) (k : A → M B) :
  grows m → (∀ a, grows (k a)) → grows (bind m k).
Proof.
  intros Hm Hk w. unfold bind. specialize (Hm w).
  destruct (m w) as [[a|e|] w1]; simpl in *; [|done|done].
  etrans; [exact Hm|apply Hk].
Qed.
Lemma grows_os_path_exists p : grows (os_path_exists p).
Proof. by intros w. Qed.
Lemma grows_os_makedirs p : grows (os_makedirs p).
Proof. intros w. unfold os_makedirs. by destruct (mkdir_chain _ _). Qed.
Lemma grows_shutil_rmtree p : grows (shutil_rmtree p).
Proof. intros w. unfold shutil_rmtree. by destruct (fs w !! p) as [[|?]|]. Qed.
Lemma grows_os_remove p : grows (os_remove p).
Proof. intros w. unfold os_remove. by destruct (fs w !! p) as [[|?]|]. Qed.
Lemma grows_subprocess_run args dir : grows (subprocess_run args dir).
Proof.
  intros w. unfold subprocess_run. destruct (is_dir _ _); [|done].
  destruct (spawn _ _ _) as [code [f' r']]. by destruct (decide _).
Qed.
Lemma grows_pd_read_csv p : grows (pd_read_csv p).
Proof.
  intros w. unfold pd_read_csv.
  destruct (fs w !! p) as [[|[df| |]]|]; try done. by destruct (rectangular df).
Qed.
Lemma grows_to_hdf df p k c l : grows (to_hdf df p k c l).
Proof.
  intros w. unfold to_hdf.
  destruct (fs w !! p) as [[|[df'| |]]|]; try done. by destruct (is_dir _ _).
Qed.
Lemma grows_with_lock {A} l (body : M A) : grows body → grows (with_lock l body).
Proof.
  intros Hb w. unfold with_lock. destruct (decide _); [done|].
  specialize (Hb (set_held ({[l]} ∪ held w) w)).
  by destruct (body _) as [r w'].
Qed.

Lemma grows_ensure R : grows (ensure R).
Proof.
  rewrite ensure_unfold. apply grows_with_lock.
  destruct R; unfold critical, base_dataset_critical, datawarehouse_critical;
    repeat first
      [ apply grows_bind; [|intros ?]
      | apply grows_os_makedirs | apply grows_os_path_exists | apply grows_print
      | apply grows_ret | apply grows_shutil_rmtree | apply grows_subprocess_run
      | match goal with |- grows (if ?b then _ else _) => destruct b end ].
Qed.

Lemma grows_prepare z : grows (ensure_skewed_dataset_prepared z).
Proof.
  unfold ensure_skewed_dataset_prepared.
  repeat first
    [ apply grows_bind; [|intros ?]
    | apply (grows_ensure BaseDataset) | apply (grows_ensure Datawarehouse)
    | apply grows_os_makedirs | apply grows_os_path_exists | apply grows_print
    | apply grows_ret | apply grows_subprocess_run | apply grows_pd_read_csv
    | apply grows_lift | apply grows_to_hdf | apply grows_os_remove
    | match goal with |- grows (if ?b then _ else _) => destruct b end ].
Qed.

Lemma grows_catch {A B} (func : A → M B) a : grows (func a) → grows (catch func a).
Proof.
  intros Hf w. specialize (Hf w).
  destruct (catch_cases func a w) as [(v & w' & Hr & ->)|[(e & w' & Hr & ->)|(w' & Hr & ->)]];
    rewrite Hr in Hf; simpl in *; [done| |done].
  etrans; [exact Hf|]. by apply prefix_app_r.
Qed.

(** The worker has run every submitted call; what a call returned is in
    its future, and what it printed is still on standard output. *)
Lemma executor_run_inv {A B} (fn : A → M B) args (w : world) rs w' :
  (∀ a, grows (fn a)) →
  executor_run fn args w = (Ok rs, w') →
  out w `prefix_of` out w' ∧
  Forall2 (λ a r, ∃ w0 w0', fn a w0 = (r, w0') ∧ r ≠ Block ∧
                            out w0' `prefix_of` out w') args rs.
Proof.
  intros Hg. revert w rs w'. induction args as [|a args IH]; intros w rs w'; simpl.
  { intros [= <- <-]. split; [done|constructor]. }
  pose proof (Hg a w) as Ha.
  destruct (fn a w) as [r w1] eqn:Hr. simpl in Ha.
  specialize (IH w1).
  destruct (executor_run fn args w1) as [[rs'|e|] w2] eqn:Hrest.
  - destruct (IH rs' w2 eq_refl) as [Hp HF].
    destruct r; intros [= <- <-]; (split; [by etrans|]);
      (constructor; [by eauto 6|]);
      (eapply Forall2_impl; [exact HF|]); intros ?? (?&?&?&?&?); eauto 6.
  - by destruct r.
  - by destruct r.
Qed.

End Output.


Section Batch.
Context `{Ext : Externals}.

Lemma executor_run_no_raise {A B} (fn : A → M B) args (w : world) e w' :
  executor_run fn args w ≠ (Raise e, w').
Proof.
  revert w. induction args as [|a args IH]; intros w; simpl; [done|].
  destruct (fn a w) as [r w1]. specialize (IH w1).
  destruct (executor_run fn args w1) as [[rs|e'|] w2]; destruct r; congruence.
Qed.

(** What the futures of the batch hold. *)
Lemma batch_futures zs (w : world) results w1 :
  executor_run (catch ensure_skewed_dataset_prepared) zs w = (Ok results, w1) →
  length results = length zs ∧
  Forall2 (λ z r,
    r = Ok None ∨
    ∃ e w0 w0', r = Ok (Some e) ∧
                ensure_skewed_dataset_prepared z w0 = (Raise e, w0') ∧
                ExceptionLine e ∈ out w1) zs results.
Proof.
  intros H.
  apply executor_run_inv in H as [_ HF];
    [|intros z; apply grows_catch, grows_prepare].
  split; [symmetry; by eapply Forall2_length|].
  eapply Forall2_impl; [exact HF|]. intros z r (w0 & w0' & Hc & Hnb & Hout).
  destruct (catch_cases ensure_skewed_dataset_prepared z w0)
    as [(v & w' & Hr & Hc')|[(e & w' & Hr & Hc')|(w' & Hr & Hc')]];
    rewrite Hc' in Hc; injection Hc as <- <-; [by left| |done].
  right. exists e, w0, w'. split; [done|]. split; [done|].
  eapply elem_of_prefix; [|exact Hout]. simpl. set_solver.
Qed.

Lemma report_raise_inv n i completed (w : world) e :
  (report n i completed w).1 = Raise e →
  ∃ z, (Ok (Some e), z) ∈ completed ∨ (Raise e, z) ∈ completed.
Proof.
  revert i w. induction completed as [|[r z] l IH]; intros i w; simpl; [done|].
  unfold bind, future_result, lift. destruct r as [[e'|]|e'|]; simpl.
  - intros [= ->]. exists z. left. by left.
  - fold (@bind Ext). intros H. apply IH in H as [z' [H|H]]; exists z';
      [left|right]; by right.
  - intros [= ->]. exists z. right. by left.
  - done.
Qed.

(** C1, as amended.  Take a batch whose worker has run all submitted
    calls ([results] are their futures, [w1] the world after the last
    one), an iteration order [order] that yields every future once, and
    at least one fault among the results.  Then: there are as many
    results as values, so every dispatched call has completed; every
    fault was printed by [catch]; and the runner raises exactly the first
    fault in iteration order, from the world [w1], having printed one
    [Done] line for each of the successes that precede this fault in
    iteration order and none for the fault or for what follows it.  These
    are fewer than [n] lines: the count never reaches [n/n]. *)
Theorem batch_raises_first_fault_after_all_ran
    (zs : list string) (order : list nat) (w : world) results w1 :
  executor_run (catch ensure_skewed_dataset_prepared) zs w = (Ok results, w1) →
  order ≡ₚ seq 0 (length zs) →
  (∃ e, Ok (Some e) ∈ results) →
  length results = length zs ∧
  (∀ e', Ok (Some e') ∈ results → ExceptionLine e' ∈ out w1) ∧
  ∃ pre e z post,
    as_completed (zip results zs) order = pre ++ (Ok (Some e), z) :: post ∧
    Forall (λ x, x.1 = Ok None) pre ∧
    prepare_datasets_for zs order w =
      (Raise e, log (progress_lines (length zs) 0 pre.*2) w1) ∧
    length pre < length zs ∧
    ∀ z', Done (length zs) (length zs) z' ∉ progress_lines (length zs) 0 pre.*2.
Proof.
  intros Hrun Hperm [e0 He0].
  destruct (batch_futures zs w results w1 Hrun) as [Hlen HF].
  split; [done|]. split.
  { intros e' [i Hi]%list_elem_of_lookup_1.
    destruct (Forall2_lookup_r _ _ _ _ _ HF Hi) as (z & _ & [|(e & _ & _ & [= ->] & _ & ?)]);
      done. }
  assert (Hzip : length (zip results zs) = length zs).
  { rewrite length_zip_with. lia. }
  assert (Hcp : as_completed (zip results zs) order ≡ₚ zip results zs).
  { apply as_completed_permutation. by rewrite Hzip. }
  assert (Hok : Forall (λ x : result (option exn) * string, ∃ o, x.1 = Ok o)
                  (as_completed (zip results zs) order)).
  { rewrite Hcp. apply Forall_forall. intros [r z] [i Hi]%list_elem_of_lookup_1.
    apply lookup_zip_with_Some in Hi as (r' & z' & [= <- <-] & Hr & Hz).
    destruct (Forall2_lookup_r _ _ _ _ _ HF Hr) as (? & _ & [->|(e & _ & _ & -> & _)]);
      simpl; eauto. }
  assert (Hex : Exists (λ x : result (option exn) * string, ∃ e, x.1 = Ok (Some e))
                  (as_completed (zip results zs) order)).
  { rewrite Hcp. apply list_elem_of_lookup_1 in He0 as [i Hi].
    destruct (lookup_lt_is_Some_2 zs i) as [z Hz].
    { rewrite <- Hlen. by eapply lookup_lt_Some. }
    apply Exists_exists. exists (Ok (Some e0), z). split; [|by eexists].
    apply (list_elem_of_lookup_2 _ i). apply lookup_zip_with_Some. eauto. }
  destruct (first_fault_split _ Hok Hex) as (pre & e & z & post & Hsplit & Hpre).
  exists pre, e, z, post. split; [done|]. split; [done|].
  assert (Hpl : length pre < length zs).
  { rewrite <- Hzip, <- Hcp, Hsplit, length_app. simpl. lia. }
  split; [|split; [done|]].
  - unfold prepare_datasets_for. rewrite (bind_ok _ _ _ _ _ Hrun), Hsplit.
    by apply report_first_fault.
  - intros z' Hin%progress_lines_bound. rewrite length_fmap in Hin. lia.
Qed.

End Batch.


Section CatchAndCleanup.
Context `{Ext : Externals}.


(** C6, as amended.  After a successful [ensure_skewed_dataset_prepared z]
    the durable path exists.  The intermediate path does not exist when
    the durable path was absent at the check of line 65, that is, when
    the pipeline ran.  When the durable path was already there the call
    returns at that check, and the world, an existing intermediate file
    included, is as lines 57-60 left it. *)
Theorem durable_exists_and_intermediate_removed (z : string) (w w' : world) :
  ensure_skewed_dataset_prepared z w = (Ok tt, w') →
  is_Some (fs w' !! h5_path z) ∧
  (durable_at_check z w = None → fs w' !! csv_path z = None) ∧
  (is_Some (durable_at_check z w) → w' = (prerequisites w).2).
Proof.
  intros H. destruct (durable_at_check z w) as [n|] eqn:Hd.
  - assert (Hearly : w' = (prerequisites w).2 ∧ is_Some (fs w' !! h5_path z)).
    { revert H Hd. unfold ensure_skewed_dataset_prepared, durable_at_check, prerequisites.
      intros H Hd.
      apply bind_inv_ok in H as ([] & w1 & H1 & H).
      apply bind_inv_ok in H as ([] & w2 & H2 & H).
      apply bind_inv_ok in H as ([] & w3 & H3 & H).
      rewrite (bind_ok _ _ _ _ _ H1), (bind_ok _ _ _ _ _ H2), H3 in Hd |- *.
      simpl in Hd |- *.
      assert (Hs : is_Some (fs w3 !! h5_path z)) by (rewrite Hd; eauto).
      rewrite (bind_ok _ _ _ _ _ (os_path_exists_true _ w3 Hs)) in H.
      injection H as <-. done. }
    destruct Hearly as [-> Hs]. split; [done|]. split; [done|done].
  - destruct (prepared_inv z w w' H Hd)
      as (f & df & series & mask & v & store & _ & _ & _ & _ & _ & Hfs & _).
    rewrite Hfs. split; [|split].
    + rewrite lookup_delete_ne by apply csv_h5_distinct.
      rewrite lookup_insert_eq. eauto.
    + intros _. apply lookup_delete_eq.
    + by intros [? ?].
Qed.

End CatchAndCleanup.



Section Workers.
Context `{Ext : Externals}.

Lemma download_dirs_eq R :
  download_dirs R =
  match R with
  | BaseDataset => ["data"]
  | Datawarehouse => ["data"; "data/3rd-party"]
  end.
Proof. by destruct R. Qed.

Lemma download_dirs_outside R p n :
  p ∈ download_dirs R → outside (storage R) (p, n).
Proof.
  rewrite download_dirs_eq. destruct R.
  - intros ->%list_elem_of_singleton. by split.
  - intros [->|Hp]%elem_of_cons; [by split|].
    apply list_elem_of_singleton in Hp as ->. by split.
Qed.

Lemma critical_noop R (w : world) :
  present R w → dirs_ready R (fs w) → critical R w = (Ok tt, w).
Proof.
  intros Hp Hd.
  assert (Hmk : os_makedirs (fetch_dir R) w = (Ok tt, w)) by by apply os_makedirs_noop.
  destruct R; unfold critical, base_dataset_critical, datawarehouse_critical;
    rewrite (bind_ok _ _ _ _ _ Hmk);
    by rewrite (bind_ok _ _ _ _ _ (os_path_exists_true _ w Hp)).
Qed.

Lemma critical_first R (w : world) f1 :
  fetch_succeeds R →
  fs w !! marker R = None →
  mkdir_chain (download_dirs R) (fs w) = Ok f1 →
  (∀ c, fs w !! storage R ≠ Some (File c)) →
  ∃ w' p, critical R w = (Ok tt, w') ∧ held w' = held w ∧
          procs w' = procs w ++ [p] ∧ argv p = fetch_argv R ∧
          present R w' ∧ dirs_ready R (fs w').
Proof.
  intros Hs Hm Hc Hloc.
  destruct (critical_fetches R w f1 Hm Hc Hloc)
    as (code & f' & r' & w' & Hsp & Hcr & Hfs & _ & Hh & Hp).
  set (f2 := match f1 !! storage R with
             | Some Dir => filter (outside (storage R)) f1
             | _ => f1
             end) in *.
  assert (Hd : dirs_ready R f2).
  { destruct (mkdir_chain_spec _ _ _ Hc) as [_ Hd]. apply Forall_forall. intros p Hin.
    specialize (Hd p Hin). subst f2. destruct (f1 !! storage R) as [[|c]|]; try done.
    destruct (decide (p = "")) as [->|Hne].
    { unfold is_dir. destruct (_ !! ""); [destruct n|]; by try apply bool_decide_eq_true. }
    apply is_dir_lookup in Hd; [|done].
    assert (Hf : filter (outside (storage R)) f1 !! p = Some Dir).
    { apply map_lookup_filter_Some. split; [done|]. by apply download_dirs_outside. }
    unfold is_dir. by rewrite Hf. }
  destruct (Hs f2 (remote w) Hd) as (H0 & Hmark & Hd').
  rewrite Hsp in H0, Hmark, Hd'. simpl in *. subst code.
  exists w', {| argv := fetch_argv R; cwd := fetch_dir R; seen := f2 |}.
  rewrite decide_True in Hcr by done.
  unfold present. rewrite Hfs. done.
Qed.

End Workers.


Section WorkersInvariant.
Context `{Ext : Externals}.
Variable R : resource.
Variable w0 : world.
Hypothesis Hfetch : fetch_succeeds R.
Hypothesis Hmarker : fs w0 !! marker R = None.
Hypothesis Hdirs : (os_makedirs (fetch_dir R) w0).1 = Ok tt.
Hypothesis Hstorage : ∀ c, fs w0 !! storage R ≠ Some (File c).

Lemma invariant_start k : resource_lock R ∉ held w0 → invariant R w0 (start k w0).
Proof.
  intros Hfree. split; [split|left].
  - intros i j ti tj [-> _]%lookup_replicate. done.
  - split; [done|]. intros (i & t & [-> _]%lookup_replicate & ?). done.
  - split; [done|]. split; [done|]. intros i t [-> _]%lookup_replicate. by left.
Qed.

Lemma invariant_step i s s' :
  invariant R w0 s → worker_step R i s = Some s' → invariant R w0 s'.
Proof.
  intros [[Hme Hlk] Hphase]. unfold worker_step.
  destruct (workers s !! i) as [[| |r|r]|] eqn:Hi; [| | |done|done].
  - (* acquire *)
    destruct (decide _) as [|Hfree]; [done|]. intros [= <-].
    assert (Hnone : ∀ j t, workers s !! j = Some t → in_critical t = false).
    { intros j t Hj. destruct (in_critical t) eqn:Hc; [|done].
      destruct Hfree. apply Hlk. eauto. }
    assert (Hlt : i < length (workers s)) by by eapply lookup_lt_Some.
    split; [split|]; simpl.
    + intros i' j' ti tj [(<-&<-&_)|(_&H1)]%list_lookup_insert_Some
                          [(<-&<-&_)|(_&H2)]%list_lookup_insert_Some; try done;
        intros; first [rewrite (Hnone _ _ H1) in *|rewrite (Hnone _ _ H2) in *]; done.
    + split; [|set_solver]. intros _. exists i, Holding.
      by rewrite list_lookup_insert_eq.
    + destruct Hphase as [(Hf & Hp & Hw)|(Hp & Hpr & Hd & Hw)]; [left|right].
      * split; [done|]. split; [done|].
        intros j t [(_&<-&_)|(_&H)]%list_lookup_insert_Some; [by right|by eapply Hw].
      * split; [done|]. split; [done|]. split; [done|].
        intros j t [(_&<-&_)|(_&H)]%list_lookup_insert_Some; [auto|by eapply Hw].
  - (* the body *)
    destruct (critical R (shared s)) as [r w'] eqn:Hcr. intros [= <-].
    assert (Hlt : i < length (workers s)) by by eapply lookup_lt_Some.
    assert (Hres : r = Ok tt ∧ held w' = held (shared s) ∧
              fetched R w0 {| shared := w'; workers := <[i := Leaving r]> (workers s) |}).
    { destruct Hphase as [(Hf & Hp & Hw)|(Hp & Hpr & Hd & Hw)].
      - destruct (os_makedirs_cases (fetch_dir R) w0) as [[e He]|(f1 & _ & Hc)];
          [by rewrite He in Hdirs|].
        destruct (critical_first R (shared s) f1 Hfetch) as (w1 & p & Hc1 & Hh & Hp1 & Ha & Hpr & Hd);
          [by rewrite Hf|by rewrite Hf|by rewrite Hf|].
        rewrite Hc1 in Hcr. injection Hcr as <- <-.
        split; [done|]. split; [done|]. split; [|split; [done|split; [done|]]].
        + exists p. simpl. by rewrite Hp1, Hp.
        + simpl. intros j t [(_&<-&_)|(_&H)]%list_lookup_insert_Some; [auto|].
          destruct (Hw _ _ H); auto.
      - rewrite (critical_noop R (shared s) Hpr Hd) in Hcr. injection Hcr as <- <-.
        split; [done|]. split; [done|]. split; [done|]. split; [done|]. split; [done|].
        simpl. intros j t [(_&<-&_)|(_&H)]%list_lookup_insert_Some; [auto|by eapply Hw]. }
    destruct Hres as (-> & Hh & Hfd). split; [split|by right]; simpl.
    + intros i' j' ti tj [(<-&<-&_)|(?&H1)]%list_lookup_insert_Some
                          [(<-&<-&_)|(?&H2)]%list_lookup_insert_Some; try done; intros.
      * by apply (Hme i j' Holding tj).
      * by apply (Hme i' i ti Holding).
      * by apply (Hme i' j' ti tj).
    + rewrite Hh, Hlk. split.
      * intros _. exists i, (Leaving (Ok tt)). by rewrite list_lookup_insert_eq.
      * intros _. by exists i, Holding.
  - (* release *)
    intros [= <-].
    assert (Hlt : i < length (workers s)) by by eapply lookup_lt_Some.
    assert (Hnone : ∀ j t, <[i := Finished r]> (workers s) !! j = Some t →
                           in_critical t = false).
    { intros j t [(_&<-&_)|(Hne&H)]%list_lookup_insert_Some; [done|].
      destruct (in_critical t) eqn:Hc; [|done].
      destruct Hne. by apply (Hme i j (Leaving r) t). }
    split; [split|]; simpl.
    + intros i' j' ti tj H1 H2 Hc. by rewrite (Hnone _ _ H1) in Hc.
    + split; [set_solver|]. intros (j & t & H & Hc). by rewrite (Hnone _ _ H) in Hc.
    + destruct Hphase as [(Hf & Hp & Hw)|(Hp & Hpr & Hd & Hw)].
      * by destruct (Hw _ _ Hi).
      * right. split; [done|]. split; [done|]. split; [done|].
        intros j t [(_&<-&_)|(_&H)]%list_lookup_insert_Some; [|by eapply Hw].
        destruct (Hw _ _ Hi) as [|[|[[= ->]|]]]; try done. auto.
Qed.

Lemma invariant_run schedule s :
  invariant R w0 s → invariant R w0 (run_schedule R schedule s).
Proof.
  revert s. induction schedule as [|i schedule IH]; intros s Hinv; simpl; [done|].
  destruct (worker_step R i s) as [s'|] eqn:Hstep; [|by apply IH].
  apply IH. by eapply invariant_step.
Qed.

Lemma worker_step_length i s s' :
  worker_step R i s = Some s' → length (workers s') = length (workers s).
Proof.
  unfold worker_step. destruct (workers s !! i) as [[| |r|r]|]; try done.
  - destruct (decide _); [done|]. intros [= <-]. simpl. by rewrite length_insert.
  - destruct (critical R (shared s)). intros [= <-]. simpl. by rewrite length_insert.
  - intros [= <-]. simpl. by rewrite length_insert.
Qed.

Lemma run_schedule_length schedule s :
  length (workers (run_schedule R schedule s)) = length (workers s).
Proof.
  revert s. induction schedule as [|i schedule IH]; intros s; simpl; [done|].
  destruct (worker_step R i s) as [s'|] eqn:Hstep; [|by apply IH].
  rewrite IH. by eapply worker_step_length.
Qed.

End WorkersInvariant.


Section WorkersTheorem.
Context `{Ext : Externals}.

(** One worker alone goes through [with lock: body] in three steps and
    ends where [ensure] ends. *)
Lemma single_worker_is_ensure R (w : world) :
  resource_lock R ∉ held w →
  run_schedule R [0; 0; 0] (start 1 w) =
    {| shared := (ensure R w).2; workers := [Finished (ensure R w).1] |}.
Proof.
  intros Hfree. rewrite ensure_unfold. unfold with_lock. rewrite decide_False by done.
  simpl. unfold worker_step. simpl. rewrite decide_False by done. simpl.
  by destruct (critical R _) as [r w'].
Qed.


End WorkersTheorem.


Section CounterFacts.

Lemma get_raises (self : gmap string Counter.value) :
  self !! "value" = None →
  self !! "_lock" = Some (Counter.VLock false) →
  (Counter.get self).1 = Raise (error AttributeError "value").
Proof.
  intros Hv Hl. unfold Counter.get, Counter.with_self_lock.
  unfold Counter.getattr at 1. rewrite Hl.
  unfold Counter.getattr. rewrite lookup_insert_ne by done. rewrite Hv.
  reflexivity.
Qed.

Lemma new_dict globals (self : gmap string Counter.value) :
  Counter.new globals = Ok self →
  self = <["_lock" := Counter.VLock false]> (<["_value" := Counter.VInt 0]> ∅).
Proof.
  unfold Counter.new, Counter.__init__.
  destruct (Counter.lookup_name globals "threading") as [[| |name|]|e|]; try done.
  destruct (decide (name = "threading")); [|done]. by intros [= <-].
Qed.

Lemma live_closed a b :
  a ∈ CallGraph.live → b ∈ CallGraph.uses a → b ∈ CallGraph.live.
Proof.
  intros Ha Hb.
  assert (H : bool_decide (a ∈ CallGraph.live) && bool_decide (b ∈ CallGraph.uses a)
              → bool_decide (b ∈ CallGraph.live)).
  { by destruct a, b. }
  eapply bool_decide_unpack, H. apply andb_True. split; by apply bool_decide_pack.
Qed.

Lemma reachable_live s :
  CallGraph.reachable CallGraph.module_body s → s ∈ CallGraph.live.
Proof.
  induction 1 as [|b c _ IH Hc]; [by eapply bool_decide_unpack|].
  by eapply live_closed.
Qed.

(** C10.  The class is unusable and unused.  With the names the module
    binds, [Counter()] raises [NameError] for [threading].  An instance
    that has its lock and no attribute [value] (in particular every
    instance that [__init__] can build in a module where [threading] is
    bound) makes [get] raise [AttributeError] for [value].  Neither the
    class nor any of its methods is reachable from the module body, which
    is what runs [prepare_all_datasets]. *)
Theorem counter_is_dead_and_broken :
  Counter.new Counter.module_globals = Raise (error NameError "threading") ∧
  (∀ self : gmap string Counter.value,
     self !! "value" = None →
     self !! "_lock" = Some (Counter.VLock false) →
     (Counter.get self).1 = Raise (error AttributeError "value")) ∧
  (∀ globals self,
     Counter.new globals = Ok self →
     (Counter.get self).1 = Raise (error AttributeError "value")) ∧
  (∀ s, s ∈ [CallGraph.Counter; CallGraph.Counter_init;
             CallGraph.Counter_inc; CallGraph.Counter_get] →
        ¬ CallGraph.reachable CallGraph.module_body s).
Proof.
  split; [by vm_compute|]. split; [exact get_raises|]. split.
  - intros globals self ->%new_dict. by apply get_raises.
  - intros s Hs Hr%reachable_live.
    assert (H : bool_decide (s ∈ [CallGraph.Counter; CallGraph.Counter_init;
                  CallGraph.Counter_inc; CallGraph.Counter_get])
                → bool_decide (s ∈ CallGraph.live) → False) by by destruct s.
    apply H; by apply bool_decide_pack.
Qed.

End CounterFacts.



(** * More of the script *)

Section Frames.
Context `{Ext : Externals}.

Lemma keeps_ret {A X} (f : world → X) (a : A) : keeps f (ret a).
Proof. by intros w. Qed.
Lemma keeps_raise {A X} (f : world → X) e : keeps f (@raise _ A e).
Proof. by intros w. Qed.
Lemma keeps_lift {A X} (f : world → X) (r : result A) : keeps f (lift r).
Proof. by intros w. Qed.
Lemma keeps_bind {A B X} (f : world → X) (m : M A) (k : A → M B) :
  keeps f m → (∀ a, keeps f (k a)) → keeps f (bind m k).
Proof.
  intros Hm Hk w. unfold bind. specialize (Hm w).
  destruct (m w) as [[a|e|] w1]; simpl in *; [|done|done].
  by rewrite Hk.
Qed.
Lemma keeps_os_path_exists {X} (f : world → X) p : keeps f (os_path_exists p).
Proof. by intros w. Qed.
Lemma keeps_pd_read_csv {X} (f : world → X) p : keeps f (pd_read_csv p).
Proof.
  intros w. unfold pd_read_csv.
  destruct (fs w !! p) as [[|[df| |]]|]; try done. by destruct (rectangular df).
Qed.

(** The locks *)
Lemma held_print l : keeps held (print l).
Proof. by intros w. Qed.
Lemma held_os_makedirs p : keeps held (os_makedirs p).
Proof. intros w. unfold os_makedirs. by destruct (mkdir_chain _ _). Qed.
Lemma held_shutil_rmtree p : keeps held (shutil_rmtree p).
Proof. intros w. unfold shutil_rmtree. by destruct (fs w !! p) as [[|?]|]. Qed.
Lemma held_os_remove p : keeps held (os_remove p).
Proof. intros w. unfold os_remove. by destruct (fs w !! p) as [[|?]|]. Qed.
Lemma held_subprocess_run args dir : keeps held (subprocess_run args dir).
Proof.
  intros w. unfold subprocess_run. destruct (is_dir _ _); [|done].
  destruct (spawn _ _ _) as [code [f' r']]. by destruct (decide _).
Qed.
Lemma held_to_hdf df p k c l : keeps held (to_hdf df p k c l).
Proof.
  intros w. unfold to_hdf.
  destruct (fs w !! p) as [[|[df'| |]]|]; try done. by destruct (is_dir _ _).
Qed.
Lemma held_with_lock {A} l (body : M A) : keeps held body → keeps held (with_lock l body).
Proof.
  intros Hb w. unfold with_lock. destruct (decide _) as [|Hfree]; [done|].
  specialize (Hb (set_held ({[l]} ∪ held w) w)).
  destruct (body _) as [r w']. simpl in *. rewrite Hb. set_solver.
Qed.

Lemma held_critical R : keeps held (critical R).
Proof.
  destruct R; unfold critical, base_dataset_critical, datawarehouse_critical;
    repeat first
      [ apply keeps_bind; [|intros ?]
      | apply held_os_makedirs | apply keeps_os_path_exists | apply held_print
      | apply keeps_ret | apply held_shutil_rmtree | apply held_subprocess_run
      | match goal with |- keeps _ (if ?b then _ else _) => destruct b end ].
Qed.

Lemma held_ensure R : keeps held (ensure R).
Proof. rewrite ensure_unfold. apply held_with_lock, held_critical. Qed.

Lemma held_prepare z : keeps held (ensure_skewed_dataset_prepared z).
Proof.
  unfold ensure_skewed_dataset_prepared.
  repeat first
    [ apply keeps_bind; [|intros ?]
    | apply (held_ensure BaseDataset) | apply (held_ensure Datawarehouse)
    | apply held_os_makedirs | apply keeps_os_path_exists | apply held_print
    | apply keeps_ret | apply held_subprocess_run | apply keeps_pd_read_csv
    | apply keeps_lift | apply held_to_hdf | apply held_os_remove
    | match goal with |- keeps _ (if ?b then _ else _) => destruct b end ].
Qed.

Lemma held_catch {A B} (func : A → M B) a : keeps held (func a) → keeps held (catch func a).
Proof.
  intros Hf w. specialize (Hf w).
  destruct (catch_cases func a w) as [(v & w' & Hr & ->)|[(e & w' & Hr & ->)|(w' & Hr & ->)]];
    rewrite Hr in Hf; by simpl in *.
Qed.

Lemma held_executor_run {A B} (fn : A → M B) args :
  (∀ a, keeps held (fn a)) → keeps held (executor_run fn args).
Proof.
  intros Hf. induction args as [|a args IH]; intros w; simpl; [done|].
  specialize (Hf a w). destruct (fn a w) as [r w1]. simpl in Hf.
  specialize (IH w1). destruct (executor_run fn args w1) as [[rs|e|] w2]; simpl in IH;
    destruct r; simpl; congruence.
Qed.

Lemma held_report n i completed : keeps held (report n i completed).
Proof.
  revert i. induction completed as [|[r z] l IH]; intros i; simpl; [apply keeps_ret|].
  apply keeps_bind; [apply keeps_lift|]. intros [e|]; [apply keeps_raise|].
  apply keeps_bind; [apply held_print|]. intros _. apply IH.
Qed.

(** X1.  No lock is ever left held.  Whatever happens inside (a return,
    an exception of the download, of the transform or of pandas, or a
    wait on a lock that is already taken), each of the three entry points
    leaves the set of held locks exactly as it found it: the [with]
    blocks of lines 14 and 33 give the lock back also when their body
    raises. *)
Theorem locks_never_leak :
  (∀ R (w : world), held (ensure R w).2 = held w) ∧
  (∀ z (w : world), held (ensure_skewed_dataset_prepared z w).2 = held w) ∧
  (∀ zs order (w : world), held (prepare_datasets_for zs order w).2 = held w).
Proof.
  split; [exact held_ensure|]. split; [exact held_prepare|].
  intros zs order. unfold prepare_datasets_for.
  apply keeps_bind; [|intros ?; apply held_report].
  apply held_executor_run. intros z. apply held_catch, held_prepare.
Qed.

End Frames.


Section Processes.
Context `{Ext : Externals}.

Lemma spawned_bind {A B} Q n1 n2 (m : M A) (k : A → M B) (w : world) :
  spawned Q n1 w (m w) →
  (∀ a w', m w = (Ok a, w') → spawned Q n2 w' (k a w')) →
  spawned Q (n1 + n2) w (bind m k w).
Proof.
  intros (l1 & Hp1 & Hl1 & HQ1) Hk. unfold bind.
  destruct (m w) as [[a|e|] w1] eqn:Hm; simpl in *.
  - destruct (Hk a w1 eq_refl) as (l2 & Hp2 & Hl2 & HQ2).
    exists (l1 ++ l2). rewrite Hp2, Hp1, app_assoc, length_app. split; [done|].
    split; [lia|by apply Forall_app].
  - exists l1. split; [done|]. split; [lia|done].
  - exists l1. split; [done|]. split; [lia|done].
Qed.

Lemma spawned_keeps {A} Q (m : M A) (w : world) :
  keeps procs m → spawned Q 0 w (m w).
Proof. intros Hk. exists []. rewrite Hk, app_nil_r. by split. Qed.

Lemma spawned_weaken {A} Q n n' (w : world) (x : result A * world) :
  n ≤ n' → spawned Q n w x → spawned Q n' w x.
Proof. intros Hn (l & ? & ? & ?). exists l. split; [done|]. split; [lia|done]. Qed.

Lemma procs_print l : keeps procs (print l).
Proof. by intros w. Qed.
Lemma procs_os_makedirs p : keeps procs (os_makedirs p).
Proof. intros w. unfold os_makedirs. by destruct (mkdir_chain _ _). Qed.
Lemma procs_shutil_rmtree p : keeps procs (shutil_rmtree p).
Proof. intros w. unfold shutil_rmtree. by destruct (fs w !! p) as [[|?]|]. Qed.
Lemma procs_os_remove p : keeps procs (os_remove p).
Proof. intros w. unfold os_remove. by destruct (fs w !! p) as [[|?]|]. Qed.
Lemma procs_to_hdf df p k c l : keeps procs (to_hdf df p k c l).
Proof.
  intros w. unfold to_hdf.
  destruct (fs w !! p) as [[|[df'| |]]|]; try done. by destruct (is_dir _ _).
Qed.

(** [subprocess.run] starts the child, on the filesystem as it is, or
    fails before starting anything. *)
Lemma subprocess_run_cases args dir (w : world) :
  subprocess_run args dir w = (Raise (error FileNotFoundError dir), w) ∨
  ∃ w', procs w' = procs w ++ [{| argv := args; cwd := dir; seen := fs w |}] ∧
        held w' = held w ∧ out w' = out w ∧
        fs w' = (spawn args dir (fs w, remote w)).2.1 ∧
        remote w' = (spawn args dir (fs w, remote w)).2.2 ∧
        subprocess_run args dir w =
          (if decide ((spawn args dir (fs w, remote w)).1 = 0%Z) then Ok tt
           else Raise (error CalledProcessError (hd "" args)), w').
Proof.
  unfold subprocess_run. destruct (is_dir _ _); [right|by left].
  destruct (spawn _ _ _) as [code [f' r']]. simpl.
  exists (set_fs f' (set_remote r'
            (add_proc {| argv := args; cwd := dir; seen := fs w |} w))).
  by destruct (decide _).
Qed.

Lemma spawned_subprocess_run (Q : proc → Prop) args dir (w : world) :
  Q {| argv := args; cwd := dir; seen := fs w |} →
  spawned Q 1 w (subprocess_run args dir w).
Proof.
  intros HQ. destruct (subprocess_run_cases args dir w) as [->|(w' & Hp & _ & _ & _ & _ & ->)].
  - exists []. rewrite app_nil_r. split; [done|]. split; [simpl; lia|done].
  - exists [{| argv := args; cwd := dir; seen := fs w |}]. split; [done|].
    split; [done|]. by constructor.
Qed.

Lemma spawned_with_lock {A} Q n l (body : M A) (w : world) :
  (∀ w0, procs w0 = procs w → spawned Q n w0 (body w0)) →
  spawned Q n w (with_lock l body w).
Proof.
  intros Hb. unfold with_lock. destruct (decide _).
  { exists []. rewrite app_nil_r. split; [done|]. split; [simpl; lia|done]. }
  destruct (Hb (set_held ({[l]} ∪ held w) w) eq_refl) as (l' & Hp & ? & ?).
  destruct (body _) as [r w']. exists l'. by simpl in *.
Qed.

(** The critical section starts nothing, or the download of [R] in its
    directory. *)
Lemma spawned_critical R (w : world) :
  spawned (is_download R) 1 w (critical R w).
Proof.
  destruct R; unfold critical, base_dataset_critical, datawarehouse_critical.
  - apply (spawned_bind _ 0 1); [apply spawned_keeps, procs_os_makedirs|]. intros _ w1 _.
    apply (spawned_bind _ 0 1); [by apply spawned_keeps|]. intros [] w2 _.
    { apply (spawned_weaken _ 0); [lia|by apply spawned_keeps]. }
    apply (spawned_bind _ 0 1); [apply spawned_keeps, procs_print|]. intros _ w3 _.
    apply (spawned_bind _ 1 0); [by apply spawned_subprocess_run|]. intros _ w4 _.
    apply spawned_keeps, procs_print.
  - apply (spawned_bind _ 0 1); [apply spawned_keeps, procs_os_makedirs|]. intros _ w1 _.
    apply (spawned_bind _ 0 1); [by apply spawned_keeps|]. intros [] w2 _.
    { apply (spawned_weaken _ 0); [lia|by apply spawned_keeps]. }
    apply (spawned_bind _ 0 1); [apply spawned_keeps, procs_print|]. intros _ w3 _.
    apply (spawned_bind _ 0 1); [by apply spawned_keeps|]. intros stale w4 _.
    apply (spawned_bind _ 0 1).
    { destruct stale; apply spawned_keeps; [apply procs_shutil_rmtree|done]. }
    intros _ w5 _.
    apply (spawned_bind _ 1 0); [by apply spawned_subprocess_run|]. intros _ w6 _.
    apply spawned_keeps, procs_print.
Qed.

Lemma spawned_ensure R (w : world) : spawned (is_download R) 1 w (ensure R w).
Proof.
  rewrite ensure_unfold. apply spawned_with_lock. intros w0 _. apply spawned_critical.
Qed.

Lemma spawned_impl {A} (Q Q' : proc → Prop) n (w : world) (x : result A * world) :
  (∀ p, Q p → Q' p) → spawned Q n w x → spawned Q' n w x.
Proof.
  intros HQ (l & ? & ? & ?). exists l. split; [done|]. split; [done|].
  by eapply Forall_impl.
Qed.

Lemma os_path_exists_inv path (w : world) b w' :
  os_path_exists path w = (Ok b, w') →
  w' = w ∧ (b = true → is_Some (fs w !! path)) ∧ (b = false → fs w !! path = None).
Proof.
  unfold os_path_exists. intros [= <- <-]. split; [done|]. split.
  - by intros ?%bool_decide_eq_true.
  - intros H%bool_decide_eq_false. by apply eq_None_not_Some.
Qed.

(** X2.  What one call of [ensure_skewed_dataset_prepared z] may start:
    at most three child processes, each of them the download of the base
    dataset (in [data]), the download of the checkout (in
    [data/3rd-party]), or the transform for [z] (in the checkout), and the
    transform only on a filesystem on which neither the durable nor the
    intermediate file of [z] exists.  This holds for every outcome of the
    call. *)
Theorem prepare_starts_only_what_is_needed (z : string) (w : world) :
  spawned (allowed_process z) 3 w (ensure_skewed_dataset_prepared z w).
Proof.
  unfold ensure_skewed_dataset_prepared.
  apply (spawned_bind _ 1 2).
  { eapply spawned_impl, (spawned_ensure BaseDataset). intros p ?. by left. }
  intros _ w1 _. apply (spawned_bind _ 1 1).
  { eapply spawned_impl, (spawned_ensure Datawarehouse). intros p ?. right. by left. }
  intros _ w2 _.
  apply (spawned_bind _ 0 1); [apply spawned_keeps, procs_os_makedirs|]. intros _ w3 _.
  apply (spawned_bind _ 0 1); [by apply spawned_keeps|].
  intros durable w4 (-> & _ & Hh5)%os_path_exists_inv.
  destruct durable; [apply (spawned_weaken _ 0); [lia|by apply spawned_keeps]|].
  specialize (Hh5 eq_refl).
  apply (spawned_bind _ 0 1); [apply spawned_keeps, procs_print|].
  intros [] w5 [= Hw5]. subst w5.
  apply (spawned_bind _ 0 1); [by apply spawned_keeps|].
  intros intermediate w6 (-> & _ & Hcsv)%os_path_exists_inv.
  apply (spawned_bind _ 1 0).
  { destruct intermediate; simpl.
    - apply (spawned_weaken _ 0); [lia|by apply spawned_keeps].
    - apply spawned_subprocess_run. right. right.
      split; [done|]. split; [done|]. split; [exact Hh5|by apply Hcsv]. }
  intros _ w7 _. apply spawned_keeps.
  repeat first
    [ apply keeps_bind; [|intros ?]
    | apply procs_print | apply keeps_pd_read_csv | apply keeps_lift
    | apply procs_to_hdf | apply procs_os_remove ].
Qed.

End Processes.


Section DownloadStatus.
Context `{Ext : Externals}.

(** The critical section with the marker absent, line by line. *)
Lemma critical_download R (w : world) f1 :
  fs w !! marker R = None →
  mkdir_chain (download_dirs R) (fs w) = Ok f1 →
  (∀ c, fs w !! storage R ≠ Some (File c)) →
  critical R w =
    (subprocess_run (fetch_argv R) (fetch_dir R) ;; print (downloaded R))
      (add_out (downloading R) (set_fs
         match f1 !! storage R with
         | Some Dir => filter (outside (storage R)) f1
         | _ => f1
         end w)).
Proof.
  intros Hm Hc Hloc.
  assert (Hmk : os_makedirs (fetch_dir R) w = (Ok tt, set_fs f1 w)).
  { unfold os_makedirs. unfold download_dirs in Hc. by rewrite Hc. }
  destruct (mkdir_chain_spec _ _ _ Hc) as [Hsp _].
  assert (Hm1 : f1 !! marker R = None).
  { destruct (Hsp (marker R)) as [->|(_&Hin&_)]; [done|].
    rewrite download_dirs_eq in Hin. destruct R; set_solver. }
  destruct R; unfold critical, base_dataset_critical, datawarehouse_critical;
    rewrite (bind_ok _ _ _ _ _ Hmk);
    rewrite (bind_ok _ _ _ _ _ (os_path_exists_false _ (set_fs f1 w) Hm1)).
  - change (storage BaseDataset) with (marker BaseDataset). rewrite Hm1. reflexivity.
  - unfold bind at 1. unfold print at 1. simpl storage.
    assert (Hl1 : ∀ c, f1 !! "data/3rd-party/datawarehouse" ≠ Some (File c)).
    { intros c Hf. destruct (Hsp "data/3rd-party/datawarehouse") as [He|(_&_&_&He)];
        [|congruence]. rewrite Hf in He. by eapply Hloc. }
    destruct (f1 !! "data/3rd-party/datawarehouse") as [[|c]|] eqn:Hl.
    + erewrite (bind_ok (os_path_exists _)); [|by apply os_path_exists_true; simpl; rewrite Hl].
      unfold bind at 1. unfold shutil_rmtree. simpl fs. rewrite Hl. reflexivity.
    + by destruct (Hl1 c).
    + erewrite (bind_ok (os_path_exists _)); [|by apply os_path_exists_false].
      reflexivity.
Qed.


End DownloadStatus.


Section Resume.
Context `{Ext : Externals}.

Lemma log_log l1 l2 (w : world) : log l2 (log l1 w) = log (l1 ++ l2) w.
Proof. unfold log; simpl. by rewrite <- app_assoc. Qed.

Lemma add_out_log l (w : world) : add_out l w = log [l] w.
Proof. done. Qed.

(** From the check of line 65 on, given what lines 57-60 left. *)
Lemma prepare_from_check z (w w3 : world) :
  prerequisites w = (Ok tt, w3) →
  fs w3 !! h5_path z = None →
  ensure_skewed_dataset_prepared z w =
    (intermediate <- os_path_exists (csv_path z) ;;
     (if negb intermediate then subprocess_run (transform_argv z) transform_dir
      else ret tt) ;;
     print (Msg "Reading CSV...") ;;
     df <- pd_read_csv (csv_path z) ;;
     print (Msg "Applying filter...") ;;
     series <- lift (getitem df "PRI_tau_pt") ;;
     mask <- lift (series_gt_22 series) ;;
     let df := getitem_mask df mask in
     v <- lift (float z) ;;
     let df := setitem df "Z" (CFloat v) in
     print (Msg "Writing HDF5...") ;;
     to_hdf df (h5_path z) "data_syst" "bzip2" 3 ;;
     os_remove (csv_path z) ;;
     print (Prepared z (length (rows df)))) (log [Preparing z] w3).
Proof.
  unfold prerequisites. intros H Hd.
  apply bind_inv_ok in H as ([] & w1 & H1 & H).
  apply bind_inv_ok in H as ([] & w2 & H2 & H).
  unfold ensure_skewed_dataset_prepared.
  rewrite (bind_ok _ _ _ _ _ H1), (bind_ok _ _ _ _ _ H2), (bind_ok _ _ _ _ _ H).
  by rewrite (bind_ok _ _ _ _ _ (os_path_exists_false _ w3 Hd)).
Qed.

(** With the intermediate table [df] on disk: no transform, and the run
    continues at line 84. *)
Lemma prepare_from_table z (w w3 : world) df :
  prerequisites w = (Ok tt, w3) →
  fs w3 !! h5_path z = None →
  fs w3 !! csv_path z = Some (File (Csv df)) →
  rectangular df = true →
  ensure_skewed_dataset_prepared z w =
    (series <- lift (getitem df "PRI_tau_pt") ;;
     mask <- lift (series_gt_22 series) ;;
     let df := getitem_mask df mask in
     v <- lift (float z) ;;
     let df := setitem df "Z" (CFloat v) in
     print (Msg "Writing HDF5...") ;;
     to_hdf df (h5_path z) "data_syst" "bzip2" 3 ;;
     os_remove (csv_path z) ;;
     print (Prepared z (length (rows df))))
      (log [Preparing z; Msg "Reading CSV..."; Msg "Applying filter..."] w3).
Proof.
  intros H Hd Hcsv Hrect. rewrite (prepare_from_check z w w3 H Hd).
  erewrite (bind_ok (os_path_exists _)); cycle 1.
  { apply os_path_exists_true. simpl. rewrite Hcsv. by eexists. }
  simpl negb. cbv iota. unfold bind at 1. unfold ret at 1.
  unfold bind at 1. unfold print at 1.
  unfold bind at 1. unfold pd_read_csv at 1. simpl fs. rewrite Hcsv, Hrect.
  unfold bind at 1. unfold print at 1.
  rewrite !add_out_log, !log_log. reflexivity.
Qed.

Lemma getitem_no_block df name : getitem df name ≠ Block.
Proof.
  unfold getitem. destruct (index_of _ _); [|done]. by destruct (mapM _ _).
Qed.

Lemma series_gt_22_no_block s : series_gt_22 s ≠ Block.
Proof.
  induction s as [|c s IH]; simpl; [done|].
  destruct c; simpl; try done; by destruct (series_gt_22 s).
Qed.

Lemma float_no_block z : float z ≠ Block.
Proof. unfold float. by destruct (float_of_str z). Qed.

(** X4.  Resuming from an intermediate file.  When lines 57-60 have
    succeeded and left a filesystem without the durable file of [z] but
    with something at the intermediate path, the call starts no child
    process (the transform is skipped) and leaves the outside world
    alone, and it ends in one of two ways: it raises, and the filesystem
    is exactly as lines 57-60 left it; or it returns, and the filesystem
    differs in exactly two places: the durable file is new and holds one
    table under [data_syst], and the intermediate file is gone. *)
Theorem resume_is_all_or_nothing (z : string) (w w3 : world) :
  prerequisites w = (Ok tt, w3) →
  fs w3 !! h5_path z = None →
  is_Some (fs w3 !! csv_path z) →
  let run := ensure_skewed_dataset_prepared z w in
  procs run.2 = procs w3 ∧ remote run.2 = remote w3 ∧
  ((∃ e, run.1 = Raise e ∧ fs run.2 = fs w3) ∨
   (run.1 = Ok tt ∧
    ∃ df_out, fs run.2 = delete (csv_path z)
                (<[h5_path z := File (Hdf5 {["data_syst" := df_out]})]> (fs w3)))).
Proof.
  intros H Hd [n Hcsv] run. subst run.
  destruct (ensure_skewed_dataset_prepared z w) as [res wf] eqn:Hrun. simpl.
  assert (Hfail : ∀ e (ls : list line), (res, wf) = (Raise e, log ls w3) →
            procs wf = procs w3 ∧ remote wf = remote w3 ∧
            ((∃ e, res = Raise e ∧ fs wf = fs w3) ∨
             (res = Ok tt ∧
              ∃ df_out, fs wf = delete (csv_path z)
                (<[h5_path z := File (Hdf5 {["data_syst" := df_out]})]> (fs w3))))).
  { intros e ls [= -> ->]. split; [done|]. split; [done|]. left. eauto. }
  destruct n as [|[df| |]].
  1,3,4: rewrite (prepare_from_check z w w3 H Hd) in Hrun;
    (erewrite (bind_ok (os_path_exists _)) in Hrun;
       [|apply os_path_exists_true; simpl; rewrite Hcsv; by eexists]);
    simpl negb in Hrun; cbv iota in Hrun;
    unfold bind, ret, print, pd_read_csv in Hrun; simpl in Hrun;
    rewrite Hcsv in Hrun; rewrite !add_out_log, !log_log in Hrun;
    symmetry in Hrun; by eapply Hfail.
  destruct (rectangular df) eqn:Hrect; cycle 1.
  { rewrite (prepare_from_check z w w3 H Hd) in Hrun.
    erewrite (bind_ok (os_path_exists _)) in Hrun;
       [|apply os_path_exists_true; simpl; rewrite Hcsv; by eexists].
    simpl negb in Hrun; cbv iota in Hrun.
    unfold bind, ret, print, pd_read_csv in Hrun; simpl in Hrun.
    rewrite Hcsv, Hrect in Hrun. rewrite !add_out_log, !log_log in Hrun.
    symmetry in Hrun; by eapply Hfail. }
  rewrite (prepare_from_table z w w3 df H Hd Hcsv Hrect) in Hrun.
  unfold bind, lift in Hrun.
  destruct (getitem df "PRI_tau_pt") as [series|e|] eqn:Hs;
    [|symmetry in Hrun; by eapply Hfail|by apply getitem_no_block in Hs].
  destruct (series_gt_22 series) as [mask|e|] eqn:Hm;
    [|symmetry in Hrun; by eapply Hfail|by apply series_gt_22_no_block in Hm].
  destruct (float z) as [v|e|] eqn:Hv;
    [|symmetry in Hrun; by eapply Hfail|by apply float_no_block in Hv].
  unfold print, to_hdf in Hrun. simpl fs in Hrun. rewrite Hd in Hrun.
  destruct (is_dir (fs w3) (dirname (h5_path z)));
    [|rewrite !add_out_log, !log_log in Hrun; symmetry in Hrun; by eapply Hfail].
  unfold os_remove in Hrun. simpl fs in Hrun.
  rewrite lookup_insert_ne in Hrun by (intros Heq; by apply (csv_h5_distinct z)).
  rewrite Hcsv in Hrun. injection Hrun as <- <-. simpl.
  split; [done|]. split; [done|]. right. eauto.
Qed.

End Resume.


Section Completeness.
Context `{Ext : Externals}.

Lemma select_filter {A} (P : A → bool) xs mask :
  Forall2 (λ x b, P x = b) xs mask → select xs mask = filter (λ x, P x = true) xs.
Proof.
  induction 1 as [|x b xs mask Hx _ IH]; simpl; [done|].
  rewrite IH. destruct b.
  - by rewrite filter_cons_True.
  - rewrite filter_cons_False; [done|]. by rewrite Hx.
Qed.

Lemma mask_passes df series mask :
  getitem df "PRI_tau_pt" = Ok series →
  series_gt_22 series = Ok mask →
  Forall2 (λ row b, passes df row = b) (rows df) mask.
Proof.
  intros (j & Hj & Hcol)%getitem_spec Hmask%series_gt_22_spec.
  revert mask Hmask. induction Hcol as [|row c rows' s Hrow _ IH]; intros mask Hmask;
    inversion Hmask as [|? b ? mask' Hb Hrest]; subst; constructor; [|by apply IH].
  unfold passes, value_at. rewrite Hj. simpl. rewrite Hrow, Hb. by destruct b.
Qed.

Lemma setitem_with_z df v :
  rows (setitem df "Z" (CFloat v)) = with_z (columns df) v <$> rows df ∧
  columns (setitem df "Z" (CFloat v)) =
    match index_of "Z" (columns df) with
    | Some _ => columns df
    | None => columns df ++ ["Z"]
    end.
Proof. unfold setitem, with_z. by destruct (index_of "Z" (columns df)). Qed.

(** What a successful run has printed last, besides what [prepared_inv]
    tells: [w7] is the world in which the intermediate table was read. *)
Lemma prepared_trace z (w w' : world) :
  ensure_skewed_dataset_prepared z w = (Ok tt, w') →
  durable_at_check z w = None →
  ∃ w7 df series mask v store,
    fs w7 !! csv_path z = Some (File (Csv df)) ∧ rectangular df = true ∧
    getitem df "PRI_tau_pt" = Ok series ∧
    series_gt_22 series = Ok mask ∧
    float z = Ok v ∧
    fs w' = delete (csv_path z) (<[h5_path z := File (Hdf5 store)]> (fs w7)) ∧
    store !! "data_syst" = Some (setitem (getitem_mask df mask) "Z" (CFloat v)) ∧
    out w' = out w7 ++ [Msg "Applying filter..."; Msg "Writing HDF5...";
                        Prepared z (length (rows (setitem (getitem_mask df mask) "Z" (CFloat v))))] ∧
    last (out w7) = Some (Msg "Reading CSV...").
Proof.
  unfold ensure_skewed_dataset_prepared, durable_at_check, prerequisites.
  intros H Hd.
  apply bind_inv_ok in H as ([] & w1 & H1 & H).
  apply bind_inv_ok in H as ([] & w2 & H2 & H).
  apply bind_inv_ok in H as ([] & w3 & H3 & H).
  rewrite (bind_ok _ _ _ _ _ H1), (bind_ok _ _ _ _ _ H2), H3 in Hd. simpl in Hd.
  rewrite (bind_ok _ _ _ _ _ (os_path_exists_false _ w3 Hd)) in H.
  apply bind_inv_ok in H as ([] & w4 & _ & H).
  apply bind_inv_ok in H as (b & w5 & _ & H).
  apply bind_inv_ok in H as ([] & w6 & _ & H).
  apply bind_inv_ok in H as ([] & w7 & Hp7 & H). injection Hp7 as <-.
  apply bind_inv_ok in H as (df & w8 & Hr & H).
  apply pd_read_csv_inv in Hr as (-> & Hcsv & Hrect).
  apply bind_inv_ok in H as ([] & w9 & Hp & H). injection Hp as <-.
  apply bind_inv_ok in H as (series & w10 & [Hs ->]%lift_inv_ok & H).
  apply bind_inv_ok in H as (mask & w11 & [Hmask ->]%lift_inv_ok & H).
  apply bind_inv_ok in H as (v & w12 & [Hv ->]%lift_inv_ok & H).
  apply bind_inv_ok in H as ([] & w13 & Hp & H). injection Hp as <-.
  apply bind_inv_ok in H as ([] & w14 & (store & -> & Hst)%to_hdf_inv & H).
  apply bind_inv_ok in H as ([] & w15 & ->%os_remove_inv & H).
  injection H as <-. simpl in *.
  exists (add_out (Msg "Reading CSV...") w6), df, series, mask, v, store.
  repeat (split; [done|]). simpl. split.
  - by rewrite <- !app_assoc.
  - by rewrite last_snoc.
Qed.

Lemma index_of_is_Some name cols : is_Some (index_of name cols) ↔ name ∈ cols.
Proof.
  induction cols as [|c cols IH]; simpl.
  - split; [by intros [? ?]|by intros ?%elem_of_nil].
  - destruct (decide (c = name)) as [->|Hne].
    + split; [intros _; left|by eexists].
    + rewrite fmap_is_Some, IH. split; [by right|].
      by intros [?|?]%elem_of_cons.
Qed.

Lemma with_z_length cols v row :
  length row = length cols →
  length (with_z cols v row) =
  length (if bool_decide ("Z" ∈ cols) then cols else cols ++ ["Z"]).
Proof.
  intros Hlen. unfold with_z.
  destruct (index_of "Z" cols) as [j|] eqn:Hz.
  - rewrite bool_decide_eq_true_2 by (apply index_of_is_Some; by eexists).
    by rewrite length_insert.
  - rewrite bool_decide_eq_false_2.
    + rewrite !length_app. simpl. lia.
    + intros [? Hin]%index_of_is_Some. congruence.
Qed.

(** X5.  The filter loses nothing.  Whenever
    [ensure_skewed_dataset_prepared z] succeeds and the durable file was
    not there at the check of line 65, let [df_in] be the table that
    line 82 reads: the one at the intermediate path on the filesystem
    that lines 57-81 leave.  The stored table consists of exactly the
    rows of [df_in] whose [PRI_tau_pt] is [> 22], all of them and in
    their original order, each with [float(z)] written into column [Z]:
    overwritten in place when [df_in] already has a column [Z], appended
    as a new last column otherwise.  The other cells and the other
    columns are as in [df_in], and the stored table is rectangular
    again. *)
Theorem stored_table_is_the_filtered_input (z : string) (w w' : world) :
  ensure_skewed_dataset_prepared z w = (Ok tt, w') →
  durable_at_check z w = None →
  ∃ df_in v df_out,
    fs (before_read z w).2 !! csv_path z = Some (File (Csv df_in)) ∧
    float z = Ok v ∧
    stored (fs w') (h5_path z) "data_syst" = Some df_out ∧
    rows df_out =
      with_z (columns df_in) v <$> filter (λ row, passes df_in row = true) (rows df_in) ∧
    columns df_out =
      (if bool_decide ("Z" ∈ columns df_in) then columns df_in else columns df_in ++ ["Z"]) ∧
    rectangular df_out = true.
Proof.
  intros H Hd.
  destruct (prepared_read z w w' H Hd)
    as (df & series & mask & v & store & Hcsv & Hrect & Hs & Hm & Hv & Hfs & Hst).
  destruct (setitem_with_z (getitem_mask df mask) v) as [Hrows Hcols].
  simpl in Hrows, Hcols.
  rewrite (select_filter (passes df) _ _ (mask_passes df series mask Hs Hm)) in Hrows.
  assert (Hc : columns (setitem (getitem_mask df mask) "Z" (CFloat v)) =
    if bool_decide ("Z" ∈ columns df) then columns df else columns df ++ ["Z"]).
  { rewrite Hcols. destruct (index_of "Z" (columns df)) as [j|] eqn:Hz.
    - by rewrite bool_decide_eq_true_2 by (apply index_of_is_Some; by eexists).
    - rewrite bool_decide_eq_false_2; [done|].
      intros [? Hin]%index_of_is_Some. congruence. }
  exists df, v, (setitem (getitem_mask df mask) "Z" (CFloat v)).
  split; [done|]. split; [done|]. split; [|split; [done|split; [done|]]].
  - unfold stored. rewrite Hfs, lookup_delete_ne by apply csv_h5_distinct.
    by rewrite lookup_insert_eq.
  - unfold rectangular. apply forallb_forall. intros row Hin%list_elem_of_In.
    rewrite Hrows in Hin. apply list_elem_of_fmap in Hin as (row0 & -> & Hin).
    apply list_elem_of_filter in Hin as [_ Hin].
    apply Nat.eqb_eq. rewrite Hc. apply with_z_length.
    by apply rectangular_rows.
Qed.

(** X6.  The last line of a successful pipeline run reports the length
    of what was stored: the output ends with [Reading CSV...],
    [Applying filter...], [Writing HDF5...] and [Prepared ... length = n],
    where [n] is the number of rows of the table stored under
    [data_syst]. *)
Theorem prepared_line_reports_stored_rows (z : string) (w w' : world) :
  ensure_skewed_dataset_prepared z w = (Ok tt, w') →
  durable_at_check z w = None →
  ∃ df_out pre,
    stored (fs w') (h5_path z) "data_syst" = Some df_out ∧
    out w' = pre ++ [Msg "Reading CSV..."; Msg "Applying filter...";
                     Msg "Writing HDF5..."; Prepared z (length (rows df_out))].
Proof.
  intros H Hd.
  destruct (prepared_trace z w w' H Hd)
    as (w7 & df & series & mask & v & store & _ & _ & _ & _ & _ & Hfs & Hst & Hout & Hlast).
  exists (setitem (getitem_mask df mask) "Z" (CFloat v)).
  destruct (out w7) as [|l0 ls] eqn:Ho using rev_ind; [done|].
  rewrite last_snoc in Hlast. injection Hlast as ->.
  exists ls. split.
  - unfold stored. rewrite Hfs, lookup_delete_ne by apply csv_h5_distinct.
    by rewrite lookup_insert_eq.
  - rewrite Hout. by rewrite <- app_assoc.
Qed.

End Completeness.


Section TransformStatus.
Context `{Ext : Externals}.

Lemma keeps_procs_pipeline z :
  keeps procs
    (print (Msg "Reading CSV...") ;;
     df <- pd_read_csv (csv_path z) ;;
     print (Msg "Applying filter...") ;;
     series <- lift (getitem df "PRI_tau_pt") ;;
     mask <- lift (series_gt_22 series) ;;
     let df := getitem_mask df mask in
     v <- lift (float z) ;;
     let df := setitem df "Z" (CFloat v) in
     print (Msg "Writing HDF5...") ;;
     to_hdf df (h5_path z) "data_syst" "bzip2" 3 ;;
     os_remove (csv_path z) ;;
     print (Prepared z (length (rows df)))).
Proof.
  repeat first
    [ apply keeps_bind; [|intros ?]
    | apply procs_print | apply keeps_pd_read_csv | apply keeps_lift
    | apply procs_to_hdf | apply procs_os_remove ].
Qed.

Lemma remote_print l : keeps remote (print l).
Proof. by intros w. Qed.
Lemma remote_to_hdf df p k c l : keeps remote (to_hdf df p k c l).
Proof.
  intros w. unfold to_hdf.
  destruct (fs w !! p) as [[|[df'| |]]|]; try done. by destruct (is_dir _ _).
Qed.
Lemma remote_os_remove p : keeps remote (os_remove p).
Proof. intros w. unfold os_remove. by destruct (fs w !! p) as [[|?]|]. Qed.

Lemma keeps_remote_pipeline z :
  keeps remote
    (print (Msg "Reading CSV...") ;;
     df <- pd_read_csv (csv_path z) ;;
     print (Msg "Applying filter...") ;;
     series <- lift (getitem df "PRI_tau_pt") ;;
     mask <- lift (series_gt_22 series) ;;
     let df := getitem_mask df mask in
     v <- lift (float z) ;;
     let df := setitem df "Z" (CFloat v) in
     print (Msg "Writing HDF5...") ;;
     to_hdf df (h5_path z) "data_syst" "bzip2" 3 ;;
     os_remove (csv_path z) ;;
     print (Prepared z (length (rows df)))).
Proof.
  repeat first
    [ apply keeps_bind; [|intros ?]
    | apply remote_print | apply keeps_pd_read_csv | apply keeps_lift
    | apply remote_to_hdf | apply remote_os_remove ].
Qed.


End TransformStatus.


Section BadInput.
Context `{Ext : Externals}.

Lemma getitem_ok df name j :
  rectangular df = true →
  index_of name (columns df) = Some j →
  ∃ series, getitem df name = Ok series ∧
            Forall2 (λ (row : list cell) c, row !! j = Some c) (rows df) series.
Proof.
  intros Hrect Hj. unfold getitem. rewrite Hj.
  destruct (mapM (λ row : list cell, row !! j) (rows df)) as [cs|] eqn:Hm.
  - exists cs. split; [done|]. by apply mapM_Some.
  - exfalso. apply mapM_None in Hm. apply Exists_exists in Hm as (row & Hin & Hrow).
    apply lookup_ge_None in Hrow. apply index_of_lt in Hj.
    rewrite (rectangular_rows df row Hrect Hin) in Hrow. lia.
Qed.

Lemma series_gt_22_str s c :
  CStr c ∈ s → ∃ msg, series_gt_22 s = Raise (error TypeError msg).
Proof.
  induction s as [|c' s IH]; [by intros ?%elem_of_nil|].
  intros [<-|Hin]%elem_of_cons; simpl; [by eexists|].
  destruct (IH Hin) as [msg ->]. destruct c'; simpl; by eexists.
Qed.

Lemma series_gt_22_numbers s :
  (∀ c, CStr c ∉ s) → ∃ mask, series_gt_22 s = Ok mask.
Proof.
  induction s as [|c' s IH]; intros Hs; simpl; [by eexists|].
  destruct IH as [mask ->]. { intros c Hin. apply (Hs c). by right. }
  destruct c'; simpl; eauto. destruct (Hs s0). by left.
Qed.

(** X8.  A table or a parameter that the pipeline cannot use.  When
    lines 57-60 have succeeded, the durable file of [z] is absent and the
    intermediate file holds the table [df], then: if [df] has no column
    [PRI_tau_pt] the call raises [KeyError] for that name; if some row
    has a string in that column it raises [TypeError]; and if the column
    is all numbers but [z] is not the text of a number it raises
    [ValueError], which is the first place where the script looks at [z]
    as a number.  In all three cases nothing has been written: the world
    is as lines 57-60 left it, with the three lines [Preparing ...],
    [Reading CSV...] and [Applying filter...] printed, and the
    intermediate file is still there. *)
Theorem bad_input_fails_before_any_write (z : string) (w w3 : world) (df : DataFrame) :
  prerequisites w = (Ok tt, w3) →
  fs w3 !! h5_path z = None →
  fs w3 !! csv_path z = Some (File (Csv df)) →
  rectangular df = true →
  let run := ensure_skewed_dataset_prepared z w in
  let w' := log [Preparing z; Msg "Reading CSV..."; Msg "Applying filter..."] w3 in
  ("PRI_tau_pt" ∉ columns df → run = (Raise (error KeyError "PRI_tau_pt"), w')) ∧
  ((∃ row s, row ∈ rows df ∧ value_at df "PRI_tau_pt" row = Some (CStr s)) →
     ∃ msg, run = (Raise (error TypeError msg), w')) ∧
  ("PRI_tau_pt" ∈ columns df →
   (∀ row s, row ∈ rows df → value_at df "PRI_tau_pt" row ≠ Some (CStr s)) →
   float_of_str z = None →
     ∃ msg, run = (Raise (error ValueError msg), w')).
Proof.
  intros H Hd Hcsv Hrect run w'. subst run.
  rewrite (prepare_from_table z w w3 df H Hd Hcsv Hrect). fold w'.
  split; [|split].
  - intros Hno. unfold bind, lift, getitem.
    destruct (index_of "PRI_tau_pt" (columns df)) as [j|] eqn:Hj; [|done].
    destruct Hno. apply index_of_is_Some. by eexists.
  - intros (row & s & Hin & Hv). unfold value_at in Hv.
    destruct (index_of "PRI_tau_pt" (columns df)) as [j|] eqn:Hj; [|done]. simpl in Hv.
    destruct (getitem_ok df _ j Hrect Hj) as (series & Hs & HF).
    unfold bind, lift. rewrite Hs.
    apply list_elem_of_lookup_1 in Hin as [i Hi].
    destruct (Forall2_lookup_l _ _ _ _ _ HF Hi) as (c & Hc & Hrow).
    rewrite Hv in Hrow. injection Hrow as <-.
    destruct (series_gt_22_str series s (list_elem_of_lookup_2 _ _ _ Hc)) as [msg ->].
    by exists msg.
  - intros [j Hj]%index_of_is_Some Hnum Hz.
    destruct (getitem_ok df _ j Hrect Hj) as (series & Hs & HF).
    destruct (series_gt_22_numbers series) as [mask Hm].
    { intros s [i Hi]%list_elem_of_lookup_1.
      destruct (Forall2_lookup_r _ _ _ _ _ HF Hi) as (row & Hrow & Hc).
      apply (Hnum row s); [by eapply list_elem_of_lookup_2|].
      unfold value_at. by rewrite Hj. }
    unfold bind, lift, float. rewrite Hs, Hm, Hz. by eexists.
Qed.

End BadInput.


Section BatchSuccess.
Context `{Ext : Externals}.

Lemma results_fine_or_fault (results : list (result (option exn))) :
  Forall (λ r, r = Ok None ∨ ∃ e, r = Ok (Some e)) results →
  Forall (λ r, r = Ok None) results ∨ ∃ e, Ok (Some e) ∈ results.
Proof.
  induction 1 as [|r l [->|[e ->]] _ [IH|[e' IH]]].
  - by left.
  - left. by constructor.
  - right. exists e'. by right.
  - right. exists e. by left.
  - right. exists e. by left.
Qed.

Lemma batch_results zs (w : world) results w1 :
  executor_run (catch ensure_skewed_dataset_prepared) zs w = (Ok results, w1) →
  length results = length zs ∧
  Forall (λ r, r = Ok None ∨ ∃ e, r = Ok (Some e)) results.
Proof.
  intros [Hlen HF]%batch_futures. split; [done|].
  apply Forall_forall. intros r [i Hi]%list_elem_of_lookup_1.
  destruct (Forall2_lookup_r _ _ _ _ _ HF Hi) as (z & _ & [->|(e & _ & _ & -> & _)]); eauto.
Qed.

Lemma report_fine_run zs order results (w1 : world) :
  length results = length zs →
  order ≡ₚ seq 0 (length zs) →
  Forall (λ r, r = Ok None) results →
  ∃ zs', zs' ≡ₚ zs ∧
    report (length zs) 0 (as_completed (zip results zs) order) w1 =
      (Ok tt, log (progress_lines (length zs) 0 zs') w1).
Proof.
  intros Hlen Hperm Hall.
  assert (Hzip : length (zip results zs) = length zs).
  { rewrite length_zip_with. lia. }
  assert (Hcp : as_completed (zip results zs) order ≡ₚ zip results zs).
  { apply as_completed_permutation. by rewrite Hzip. }
  exists (as_completed (zip results zs) order).*2. split.
  - rewrite Hcp. rewrite snd_zip by lia. done.
  - apply report_all_fine. rewrite Hcp. apply Forall_forall.
    intros [r z] [i Hi]%list_elem_of_lookup_1.
    apply lookup_zip_with_Some in Hi as (r' & z' & [= <- <-] & Hr & Hz).
    rewrite Forall_lookup in Hall. simpl. by eapply Hall.
Qed.

(** X9.  The batch returns exactly when every call returned.  Take a
    batch whose worker has run all submitted calls ([results] are their
    futures, [w1] the world after the last one) and an iteration order
    that yields every future once.  Then [prepare_datasets_for] returns
    normally if and only if no call raised; and in that case it has
    printed, after everything the calls printed, exactly one line
    [Done (i/n)] per value, numbered 1 to [n] in iteration order, and
    changed nothing else. *)
Theorem batch_returns_iff_every_call_returned
    (zs : list string) (order : list nat) (w : world) results w1 :
  executor_run (catch ensure_skewed_dataset_prepared) zs w = (Ok results, w1) →
  order ≡ₚ seq 0 (length zs) →
  ((prepare_datasets_for zs order w).1 = Ok tt ↔ Forall (λ r, r = Ok None) results) ∧
  (Forall (λ r, r = Ok None) results →
   ∃ zs', zs' ≡ₚ zs ∧
     prepare_datasets_for zs order w =
       (Ok tt, log (progress_lines (length zs) 0 zs') w1)).
Proof.
  intros Hrun Hperm.
  destruct (batch_results zs w results w1 Hrun) as [Hlen Hres].
  assert (Hfine : Forall (λ r, r = Ok None) results →
   ∃ zs', zs' ≡ₚ zs ∧
     prepare_datasets_for zs order w =
       (Ok tt, log (progress_lines (length zs) 0 zs') w1)).
  { intros Hall. unfold prepare_datasets_for. rewrite (bind_ok _ _ _ _ _ Hrun).
    by apply report_fine_run. }
  split; [|exact Hfine]. split.
  - intros Hok. destruct (results_fine_or_fault results Hres) as [|[e0 He0]]; [done|].
    exfalso.
    assert (Hzip : length (zip results zs) = length zs).
    { rewrite length_zip_with. lia. }
    assert (Hcp : as_completed (zip results zs) order ≡ₚ zip results zs).
    { apply as_completed_permutation. by rewrite Hzip. }
    assert (Hok' : Forall (λ x : result (option exn) * string, ∃ o, x.1 = Ok o)
                    (as_completed (zip results zs) order)).
    { rewrite Hcp. apply Forall_forall. intros [r z] [i Hi]%list_elem_of_lookup_1.
      apply lookup_zip_with_Some in Hi as (r' & z' & [= <- <-] & Hr & Hz).
      rewrite Forall_lookup in Hres.
      destruct (Hres _ _ Hr) as [->|[e ->]]; simpl; eauto. }
    assert (Hex : Exists (λ x : result (option exn) * string, ∃ e, x.1 = Ok (Some e))
                    (as_completed (zip results zs) order)).
    { rewrite Hcp. apply list_elem_of_lookup_1 in He0 as [i Hi].
      destruct (lookup_lt_is_Some_2 zs i) as [z Hz].
      { rewrite <- Hlen. by eapply lookup_lt_Some. }
      apply Exists_exists. exists (Ok (Some e0), z). split; [|by eexists].
      apply (list_elem_of_lookup_2 _ i). apply lookup_zip_with_Some. eauto. }
    destruct (first_fault_split _ Hok' Hex) as (pre & e & z & post & Hsplit & Hpre).
    unfold prepare_datasets_for in Hok. rewrite (bind_ok _ _ _ _ _ Hrun) in Hok.
    rewrite Hsplit in Hok. by rewrite (report_first_fault _ _ _ _ _ _ _ Hpre) in Hok.
  - intros Hall. destruct (Hfine Hall) as (zs' & _ & ->). done.
Qed.

(** X10.  Running a prepared batch again.  On a machine where both
    resources are present, the durable file of every value of the batch
    exists, the filesystem is a tree and no lock is held,
    [prepare_datasets_for] returns normally and only prints its [n]
    progress lines: no child process is started, the filesystem and the
    outside world are untouched. *)
Theorem rerun_of_a_prepared_batch (zs : list string) (order : list nat) (w : world) :
  tree (fs w) →
  held w = ∅ →
  present BaseDataset w →
  present Datawarehouse w →
  Forall (λ z, is_Some (fs w !! h5_path z)) zs →
  order ≡ₚ seq 0 (length zs) →
  ∃ zs', zs' ≡ₚ zs ∧
    prepare_datasets_for zs order w =
      (Ok tt, log (progress_lines (length zs) 0 zs') w).
Proof.
  intros Ht Hh Hb Hd Hzs Hperm.
  assert (Hfree : ∀ l, l ∉ held w) by (intros l; rewrite Hh; set_solver).
  assert (Hone : ∀ z, is_Some (fs w !! h5_path z) →
            catch ensure_skewed_dataset_prepared z w = (Ok None, w)).
  { intros z Hz. unfold catch, ensure_skewed_dataset_prepared.
    rewrite (bind_ok _ _ _ _ _ (ensure_present_noop BaseDataset w Ht (Hfree _) Hb)).
    rewrite (bind_ok _ _ _ _ _ (ensure_present_noop Datawarehouse w Ht (Hfree _) Hd)).
    erewrite (bind_ok (os_makedirs _)); cycle 1.
    { apply os_makedirs_noop. apply Forall_forall. intros p Hin.
      apply (tree_dir (fs w) p (h5_path z)); [done|done|].
      rewrite ancestors_h5. vm_compute in Hin. set_solver. }
    by rewrite (bind_ok _ _ _ _ _ (os_path_exists_true _ w Hz)). }
  assert (Hrun : executor_run (catch ensure_skewed_dataset_prepared) zs w =
                 (Ok (replicate (length zs) (Ok None)), w)).
  { clear Hperm. induction Hzs as [|z zs Hz _ IH]; [done|]. simpl.
    by rewrite (Hone z Hz), IH. }
  unfold prepare_datasets_for. rewrite (bind_ok _ _ _ _ _ Hrun).
  apply report_fine_run; [by rewrite length_replicate|done|].
  apply Forall_forall. by intros r [-> _]%elem_of_replicate.
Qed.

End BatchSuccess.


Section NoDeadlock.
Context `{Ext : Externals}.

Lemma nonblocking_ret {A} (a : A) : nonblocking (ret a).
Proof. by intros w. Qed.
Lemma nonblocking_raise {A} e : nonblocking (@raise _ A e).
Proof. by intros w. Qed.
Lemma nonblocking_lift {A} (r : result A) : r ≠ Block → nonblocking (lift r).
Proof. by intros H w. Qed.
Lemma nonblocking_bind {A B} (m : M A) (k : A → M B) :
  nonblocking m → (∀ a, nonblocking (k a)) → nonblocking (bind m k).
Proof.
  intros Hm Hk w. unfold bind. specialize (Hm w).
  destruct (m w) as [[a|e|] w1]; simpl in *; [apply Hk|done|done].
Qed.
Lemma nonblocking_print l : nonblocking (print l).
Proof. by intros w. Qed.
Lemma nonblocking_os_path_exists p : nonblocking (os_path_exists p).
Proof. by intros w. Qed.
Lemma nonblocking_os_makedirs p : nonblocking (os_makedirs p).
Proof.
  intros w. unfold os_makedirs. destruct (mkdir_chain _ _) eqn:H; try done.
  by apply mkdir_chain_no_block in H.
Qed.
Lemma nonblocking_shutil_rmtree p : nonblocking (shutil_rmtree p).
Proof. intros w. unfold shutil_rmtree. by destruct (fs w !! p) as [[|?]|]. Qed.
Lemma nonblocking_os_remove p : nonblocking (os_remove p).
Proof. intros w. unfold os_remove. by destruct (fs w !! p) as [[|?]|]. Qed.
Lemma nonblocking_subprocess_run args dir : nonblocking (subprocess_run args dir).
Proof.
  intros w. unfold subprocess_run. destruct (is_dir _ _); [|done].
  destruct (spawn _ _ _) as [code [f' r']]. by destruct (decide _).
Qed.
Lemma nonblocking_pd_read_csv p : nonblocking (pd_read_csv p).
Proof.
  intros w. unfold pd_read_csv.
  destruct (fs w !! p) as [[|[df| |]]|]; try done. by destruct (rectangular df).
Qed.
Lemma nonblocking_to_hdf df p k c l : nonblocking (to_hdf df p k c l).
Proof.
  intros w. unfold to_hdf.
  destruct (fs w !! p) as [[|[df'| |]]|]; try done. by destruct (is_dir _ _).
Qed.

Lemma nonblocking_critical R : nonblocking (critical R).
Proof.
  destruct R; unfold critical, base_dataset_critical, datawarehouse_critical;
    repeat first
      [ apply nonblocking_bind; [|intros ?]
      | apply nonblocking_os_makedirs | apply nonblocking_os_path_exists
      | apply nonblocking_print | apply nonblocking_ret
      | apply nonblocking_shutil_rmtree | apply nonblocking_subprocess_run
      | match goal with |- nonblocking (if ?b then _ else _) => destruct b end ].
Qed.

Lemma ensure_free R (w : world) : resource_lock R ∉ held w → (ensure R w).1 ≠ Block.
Proof.
  intros Hfree. rewrite ensure_unfold. unfold with_lock. rewrite decide_False by done.
  pose proof (nonblocking_critical R (set_held ({[resource_lock R]} ∪ held w) w)) as H.
  by destruct (critical R _) as [r w'].
Qed.

Lemma prepare_free z (w : world) :
  held w = ∅ → (ensure_skewed_dataset_prepared z w).1 ≠ Block.
Proof.
  intros Hh. unfold ensure_skewed_dataset_prepared. unfold bind at 1.
  pose proof (ensure_free BaseDataset w) as H1. pose proof (held_ensure BaseDataset w) as Hh1.
  simpl ensure in H1, Hh1.
  destruct (ensure_base_dataset_downloaded w) as [[[]|e|] w1]; simpl in *;
    [|done|apply H1; rewrite Hh; set_solver].
  unfold bind at 1.
  pose proof (ensure_free Datawarehouse w1) as H2. simpl ensure in H2.
  destruct (ensure_datawarehouse_downloaded w1) as [[[]|e|] w2]; simpl in *;
    [|done|apply H2; rewrite Hh1, Hh; set_solver].
  revert w2.
  repeat first
    [ apply nonblocking_bind; [|intros ?]
    | apply nonblocking_os_makedirs | apply nonblocking_os_path_exists
    | apply nonblocking_print | apply nonblocking_ret
    | apply nonblocking_subprocess_run | apply nonblocking_pd_read_csv
    | apply nonblocking_lift, getitem_no_block
    | apply nonblocking_lift, series_gt_22_no_block
    | apply nonblocking_lift, float_no_block
    | apply nonblocking_to_hdf | apply nonblocking_os_remove
    | match goal with |- nonblocking (if ?b then _ else _) => destruct b end ].
Qed.

Lemma executor_run_free zs (w : world) :
  held w = ∅ →
  ∃ results w1, executor_run (catch ensure_skewed_dataset_prepared) zs w = (Ok results, w1).
Proof.
  revert w. induction zs as [|z zs IH]; intros w Hh; simpl; [eauto|].
  pose proof (prepare_free z w Hh) as Hnb.
  pose proof (held_catch ensure_skewed_dataset_prepared z (held_prepare z) w) as Hk.
  destruct (catch_cases ensure_skewed_dataset_prepared z w)
    as [(v & w' & Hr & Hc)|[(e & w' & Hr & Hc)|(w' & Hr & Hc)]];
    rewrite Hc in Hk |- *; simpl in Hk; [| |by rewrite Hr in Hnb].
  - destruct (IH w') as (rs & w1 & ->); [congruence|]. eauto.
  - destruct (IH (add_out (ExceptionLine e) w')) as (rs & w1 & ->);
      [simpl; congruence|]. eauto.
Qed.

Lemma report_free n i completed (w : world) :
  Forall (λ x : result (option exn) * string, x.1 ≠ Block) completed →
  (report n i completed w).1 ≠ Block.
Proof.
  intros H. revert i w. induction H as [|[r z] l Hr _ IH]; intros i w; simpl; [done|].
  unfold bind, future_result, lift. destruct r as [[e|]|e|]; simpl; try done.
  all: apply IH.
Qed.

(** X11.  The script never waits for itself.  [ensure R] called with the
    lock of [R] free does not block; a call of
    [ensure_skewed_dataset_prepared], and a whole batch, started with no
    lock held never blocks: each lock is released before the next one is
    taken, also after an exception, so the non-reentrant locks of lines
    10 and 29 cannot deadlock the single worker thread. *)
Theorem runner_never_blocks_itself :
  (∀ R (w : world), resource_lock R ∉ held w → (ensure R w).1 ≠ Block) ∧
  (∀ z (w : world), held w = ∅ → (ensure_skewed_dataset_prepared z w).1 ≠ Block) ∧
  (∀ zs order (w : world), held w = ∅ → (prepare_datasets_for zs order w).1 ≠ Block).
Proof.
  split; [exact ensure_free|]. split; [exact prepare_free|].
  intros zs order w Hh. unfold prepare_datasets_for.
  destruct (executor_run_free zs w Hh) as (results & w1 & Hrun).
  rewrite (bind_ok _ _ _ _ _ Hrun). apply report_free.
  destruct (batch_results zs w results w1 Hrun) as [_ Hres].
  apply Forall_forall. intros [r z] Hin%as_completed_subset.
  apply list_elem_of_lookup_1 in Hin as [i Hi].
  apply lookup_zip_with_Some in Hi as (r' & z' & [= <- <-] & Hr & Hz).
  rewrite Forall_lookup in Hres. simpl.
  by destruct (Hres _ _ Hr) as [->|[e ->]].
Qed.

End NoDeadlock.


Section Paths.

Lemma list_ascii_app s t :
  list_ascii_of_string (s +:+ t) = list_ascii_of_string s ++ list_ascii_of_string t.
Proof. induction s as [|c s IH]; simpl; [done|]. by rewrite IH. Qed.

Lemma append_inj_l s t1 t2 : t1 +:+ s = t2 +:+ s → t1 = t2.
Proof.
  intros H. apply (f_equal list_ascii_of_string) in H.
  rewrite !list_ascii_app in H. apply app_inv_tail in H.
  apply (f_equal string_of_list_ascii) in H.
  by rewrite !string_of_list_ascii_of_string in H.
Qed.

Lemma append_last s t c :
  last (list_ascii_of_string (s +:+ t +:+ String c "")) = Some c.
Proof.
  rewrite !list_ascii_app. simpl. by rewrite app_assoc, last_snoc.
Qed.


End Paths.


Section CounterInc.

(** X13.  [Counter.inc] counts.  On an instance whose lock is free and
    whose [_value] is the integer [n], every call of [inc] returns
    normally, and after [k] calls [_value] is [n + k], the lock is free
    again and no other attribute has changed. *)
Theorem inc_counts_the_calls (self : gmap string Counter.value) (n : Z) (k : nat) :
  self !! "_lock" = Some (Counter.VLock false) →
  self !! "_value" = Some (Counter.VInt n) →
  let self' := Nat.iter k (λ s, (Counter.inc s).2) self in
  (Counter.inc self').1 = Ok tt ∧
  self' !! "_value" = Some (Counter.VInt (n + Z.of_nat k)) ∧
  self' !! "_lock" = Some (Counter.VLock false) ∧
  (∀ a, a ≠ "_value" → a ≠ "_lock" → self' !! a = self !! a).
Proof.
  intros Hl Hv self'.
  assert (Hstep : ∀ (s : gmap string Counter.value) m,
            s !! "_lock" = Some (Counter.VLock false) →
            s !! "_value" = Some (Counter.VInt m) →
            Counter.inc s =
              (Ok tt, <["_lock" := Counter.VLock false]>
                        (<["_value" := Counter.VInt (m + 1)]>
                           (<["_lock" := Counter.VLock true]> s)))).
  { intros s m Hsl Hsv. unfold Counter.inc, Counter.with_self_lock.
    unfold Counter.getattr at 1. rewrite Hsl.
    unfold Counter.getattr. rewrite lookup_insert_ne by done. by rewrite Hsv. }
  assert (Hinv : self' !! "_value" = Some (Counter.VInt (n + Z.of_nat k)) ∧
                 self' !! "_lock" = Some (Counter.VLock false) ∧
                 (∀ a, a ≠ "_value" → a ≠ "_lock" → self' !! a = self !! a)).
  { subst self'. induction k as [|k (IHv & IHl & IHa)]; simpl.
    - rewrite Z.add_0_r. done.
    - rewrite (Hstep _ _ IHl IHv). simpl. split; [|split].
      + rewrite lookup_insert_ne by done. rewrite lookup_insert_eq. do 2 f_equal. lia.
      + by rewrite lookup_insert_eq.
      + intros a Ha1 Ha2. rewrite !lookup_insert_ne by done. by apply IHa. }
  destruct Hinv as (Hv' & Hl' & Ha'). split; [|done].
  by rewrite (Hstep _ _ Hl' Hv').
Qed.

End CounterInc.


Section Serialized.
Context `{Ext : Externals}.

Lemma past_body_insert (ws : list pc) i t t' :
  ws !! i = Some t →
  length (filter (λ t, past_body t = true) (<[i := t']> ws)) + (if past_body t then 1 else 0) =
  length (filter (λ t, past_body t = true) ws) + (if past_body t' then 1 else 0).
Proof.
  revert i. induction ws as [|a ws IH]; intros [|i] Hi; simplify_eq/=.
  - rewrite !filter_cons. destruct (past_body t), (past_body t'); simpl;
      repeat case_decide; simpl; try done; lia.
  - specialize (IH i Hi). rewrite !filter_cons. case_decide; simpl; lia.
Qed.

Lemma serialized_start R (w0 : world) k :
  resource_lock R ∉ held w0 → serialized R w0 (start k w0).
Proof.
  intros Hfree. split; [split|split].
  - intros i j ti tj [-> _]%lookup_replicate. done.
  - split; [done|]. intros (i & t & [-> _]%lookup_replicate & ?). done.
  - simpl. set_solver.
  - exists []. simpl. rewrite app_nil_r. split; [done|]. split; [lia|done].
Qed.

Lemma serialized_step R (w0 : world) i s s' :
  serialized R w0 s → worker_step R i s = Some s' → serialized R w0 s'.
Proof.
  intros ([Hme Hlk] & Hheld & l & Hprocs & Hlen & Hdl). unfold worker_step.
  destruct (workers s !! i) as [[| |r|r]|] eqn:Hi; [| | |done|done].
  - (* acquire *)
    destruct (decide _) as [|Hfree]; [done|]. intros [= <-].
    assert (Hnone : ∀ j t, workers s !! j = Some t → in_critical t = false).
    { intros j t Hj. destruct (in_critical t) eqn:Hc; [|done].
      destruct Hfree. apply Hlk. eauto. }
    assert (Hlt : i < length (workers s)) by by eapply lookup_lt_Some.
    split; [split|split]; simpl.
    + intros i' j' ti tj [(<-&<-&_)|(_&H1)]%list_lookup_insert_Some
                          [(<-&<-&_)|(_&H2)]%list_lookup_insert_Some; try done;
        intros; first [rewrite (Hnone _ _ H1) in *|rewrite (Hnone _ _ H2) in *]; done.
    + split; [|set_solver]. intros _. exists i, Holding.
      by rewrite list_lookup_insert_eq.
    + rewrite <- Hheld. set_solver.
    + exists l. split; [done|]. split; [|done].
      pose proof (past_body_insert (workers s) i Waiting Holding Hi) as Hc.
      simpl in Hc. lia.
  - (* the body *)
    pose proof (held_critical R (shared s)) as Hh.
    destruct (spawned_critical R (shared s)) as (l' & Hp' & Hl' & Hd').
    destruct (critical R (shared s)) as [r w'] eqn:Hcr. intros [= <-].
    simpl in Hh, Hp'.
    assert (Hlt : i < length (workers s)) by by eapply lookup_lt_Some.
    split; [split|split]; simpl.
    + intros i' j' ti tj [(<-&<-&_)|(?&H1)]%list_lookup_insert_Some
                          [(<-&<-&_)|(?&H2)]%list_lookup_insert_Some; try done; intros.
      * by apply (Hme i j' Holding tj).
      * by apply (Hme i' i ti Holding).
      * by apply (Hme i' j' ti tj).
    + rewrite Hh, Hlk. split.
      * intros _. exists i, (Leaving r). by rewrite list_lookup_insert_eq.
      * intros _. by exists i, Holding.
    + by rewrite Hh.
    + exists (l ++ l'). rewrite Hp', Hprocs, app_assoc. split; [done|].
      split; [|by apply Forall_app].
      pose proof (past_body_insert (workers s) i Holding (Leaving r) Hi) as Hc.
      simpl in Hc. rewrite length_app. lia.
  - (* release *)
    intros [= <-].
    assert (Hlt : i < length (workers s)) by by eapply lookup_lt_Some.
    assert (Hnone : ∀ j t, <[i := Finished r]> (workers s) !! j = Some t →
                           in_critical t = false).
    { intros j t [(_&<-&_)|(Hne&H)]%list_lookup_insert_Some; [done|].
      destruct (in_critical t) eqn:Hc; [|done].
      destruct Hne. by apply (Hme i j (Leaving r) t). }
    split; [split|split]; simpl.
    + intros i' j' ti tj H1 H2 Hc. by rewrite (Hnone _ _ H1) in Hc.
    + split; [set_solver|]. intros (j & t & H & Hc). by rewrite (Hnone _ _ H) in Hc.
    + rewrite <- Hheld. set_solver.
    + exists l. split; [done|]. split; [|done].
      pose proof (past_body_insert (workers s) i (Leaving r) (Finished r) Hi) as Hc.
      simpl in Hc. lia.
Qed.

Lemma serialized_run R (w0 : world) schedule s :
  serialized R w0 s → serialized R w0 (run_schedule R schedule s).
Proof.
  revert s. induction schedule as [|i schedule IH]; intros s Hinv; simpl; [done|].
  destruct (worker_step R i s) as [s'|] eqn:Hstep; [|by apply IH].
  apply IH. by eapply serialized_step.
Qed.


End Serialized.


(** * The script on the concrete machine *)

(** Resuming: the durable file for 0.9 and both resources are there. *)
Lemma prepare_skips_witness :
  @ensure_skewed_dataset_prepared Demo.ext "0.9" Demo.done_09 = (Ok tt, Demo.done_09).
Proof.
  apply (@prepare_skips_when_durable_and_resources_present Demo.ext "0.9" Demo.done_09).
  - unfold tree. apply (bool_decide_unpack _). by vm_compute.
  - reflexivity.
  - eexists. by vm_compute.
  - eexists. by vm_compute.
  - eexists. by vm_compute.
Defined.

(** The durable file for 0.9 is there and the base dataset is not: the
    call succeeds, but only after downloading the base dataset, which
    changes the filesystem. *)
Lemma prepare_fetches_despite_durable_file :
  let run := @ensure_skewed_dataset_prepared Demo.ext "0.9" Demo.done_09_no_base in
  is_Some (fs Demo.done_09_no_base !! h5_path "0.9") ∧
  run.1 = Ok tt ∧
  (argv <$> procs run.2) = [fetch_argv BaseDataset] ∧
  fs run.2 !! marker BaseDataset ≠ fs Demo.done_09_no_base !! marker BaseDataset.
Proof.
  split; [eexists; by vm_compute|].
  split; [by vm_compute|]. split; by vm_compute.
Defined.


(** A run is its outcome and the world it leaves. *)
Lemma with_world {A W} (x : A * W) r : x.1 = r → x = (r, x.2).
Proof. destruct x. by intros <-. Defined.

(** A batch of three whose second transform fails. *)
Lemma batch_witness :
  ∃ e w', @prepare_datasets_for Demo.ext ["1.0"; "bad"; "1.01"] [0; 1; 2] Demo.ready
          = (Raise e, w').
Proof.
  destruct (@batch_raises_first_fault_after_all_ran Demo.ext
              ["1.0"; "bad"; "1.01"] [0; 1; 2] Demo.ready
              [Ok None; Ok (Some (error CalledProcessError "python")); Ok None]
              (@executor_run Demo.ext _ _ (catch ensure_skewed_dataset_prepared)
                 ["1.0"; "bad"; "1.01"] Demo.ready).2)
    as (_ & _ & pre & e & z & post & _ & _ & Heq & _).
  - apply with_world. vm_compute. reflexivity.
  - reflexivity.
  - exists (error CalledProcessError "python"). apply list_elem_of_further, list_elem_of_here.
  - eauto.
Defined.


(** The same batch: the fault is raised, the third call has run all the
    same, and the only progress line is [Done (1/3)]; no line ever says
    [(3/3)]. *)
Lemma batch_progress_stops_short :
  let run := @prepare_datasets_for Demo.ext ["1.0"; "bad"; "1.01"] [0; 1; 2] Demo.ready in
  run.1 = Raise (error CalledProcessError "python") ∧
  (argv <$> procs run.2) !! 2 =
    Some ["python"; "-m"; "datawarehouse.higgsml";
          "-i"; "data/atlas-higgs-challenge-2014-v2.csv.gz";
          "-o"; "data/skewed/HiggsML_TES_1.01.csv.gz"; "--tes"; "1.01"] ∧
  filter (λ l, is_done l = true) (out run.2) = [Done 1 3 "1.0"] ∧
  ¬ ∃ z, Done 3 3 z ∈ out run.2.
Proof.
  split; [vm_compute; reflexivity|]. split; [vm_compute; reflexivity|].
  split; [vm_compute; reflexivity|].
  intros [z Hz]. vm_compute in Hz.
  repeat (apply elem_of_cons in Hz as [Hz|Hz]; [discriminate Hz|]).
  by apply elem_of_nil in Hz.
Defined.


(** An interrupted checkout is gone when [git clone] starts; what an
    interrupted download left in the data directory is still there when
    [curl] starts. *)
Lemma stale_copy_witness :
  (is_Some (fs Demo.stale_checkout !! "data/3rd-party/datawarehouse/.git/HEAD") ∧
   ∃ p, procs (@ensure Demo.ext Datawarehouse Demo.stale_checkout).2 = [p] ∧
        seen p !! "data/3rd-party/datawarehouse/.git/HEAD" = None) ∧
  (∃ p, procs (@ensure Demo.ext BaseDataset Demo.stale_data).2 = [p] ∧
        seen p !! "data/atlas-higgs-challenge-2014-v2.csv.gz.part" =
          Some (File (Blob "PK"))).
Proof.
  split.
  - split; [eexists; vm_compute; reflexivity|].
    destruct (@stale_copy_removed_before_fetch Demo.ext Datawarehouse Demo.stale_checkout)
      as (p & Hp & _ & _ & _ & Hunder & _).
    + unfold tree. apply (bool_decide_unpack _). vm_compute. exact I.
    + vm_compute. discriminate.
    + vm_compute. reflexivity.
    + vm_compute. reflexivity.
    + intros c. vm_compute. discriminate.
    + exists p. split; [exact Hp|]. apply Hunder. vm_compute. reflexivity.
  - destruct (@stale_copy_removed_before_fetch Demo.ext BaseDataset Demo.stale_data)
      as (p & Hp & _ & _ & _ & Hkept).
    + unfold tree. apply (bool_decide_unpack _). vm_compute. exact I.
    + vm_compute. discriminate.
    + vm_compute. reflexivity.
    + vm_compute. reflexivity.
    + intros c. vm_compute. discriminate.
    + exists p. split; [exact Hp|]. rewrite Hkept.
      * vm_compute. reflexivity.
      * eexists. vm_compute. reflexivity.
Defined.

(** An interrupted download of the base dataset is not cleaned up: what
    it left in the data directory is there when [curl] starts. *)
Lemma stale_download_survives :
  let run := @ensure Demo.ext BaseDataset Demo.stale_data in
  fs Demo.stale_data !! marker BaseDataset = None ∧
  is_Some (fs Demo.stale_data !! storage_location BaseDataset) ∧
  ∃ p, procs run.2 = [p] ∧ argv p = fetch_argv BaseDataset ∧
       seen p !! storage_location BaseDataset = Some Dir ∧
       seen p !! "data/atlas-higgs-challenge-2014-v2.csv.gz.part" =
         Some (File (Blob "PK")).
Proof.
  split; [vm_compute; reflexivity|].
  split; [eexists; vm_compute; reflexivity|].
  eexists. split; [vm_compute; reflexivity|].
  split; [vm_compute; reflexivity|]. split; vm_compute; reflexivity.
Defined.

(** Preparing z = 1.0 from scratch on a machine with both resources. *)
Lemma filter_witness :
  ∃ df_out,
    stored (fs (@ensure_skewed_dataset_prepared Demo.ext "1.0" Demo.ready).2)
           (h5_path "1.0") "data_syst" = Some df_out ∧
    Forall (λ row, ∃ c, value_at df_out "PRI_tau_pt" row = Some c ∧
                        cell_gt_22 c = Ok true ∧ cell_le_22 c = Ok false)
           (rows df_out).
Proof.
  destruct (@filter_keeps_only_rows_above_22 Demo.ext "1.0" Demo.ready
              (@ensure_skewed_dataset_prepared Demo.ext "1.0" Demo.ready).2)
    as (df_in & store & df_out & _ & _ & Hst & Hrows & _).
  - apply with_world. vm_compute. reflexivity.
  - vm_compute. reflexivity.
  - exists df_out. split; [exact Hst|exact Hrows].
Defined.

(** The same run: every stored row carries Z = 1.0. *)
Lemma augmentation_witness :
  ∃ v df_out,
    @float Demo.ext "1.0" = Ok v ∧
    stored (fs (@ensure_skewed_dataset_prepared Demo.ext "1.0" Demo.ready).2)
           (h5_path "1.0") "data_syst" = Some df_out ∧
    Forall (λ row, value_at df_out "Z" row = Some (CFloat v)) (rows df_out).
Proof.
  apply (@every_row_carries_z Demo.ext "1.0" Demo.ready).
  - apply with_world. vm_compute. reflexivity.
  - vm_compute. reflexivity.
Defined.

(** The same run: durable file written, intermediate file removed. *)
Lemma cleanup_witness :
  let w' := (@ensure_skewed_dataset_prepared Demo.ext "1.0" Demo.ready).2 in
  is_Some (fs w' !! h5_path "1.0") ∧ fs w' !! csv_path "1.0" = None.
Proof.
  destruct (@durable_exists_and_intermediate_removed Demo.ext "1.0" Demo.ready
              (@ensure_skewed_dataset_prepared Demo.ext "1.0" Demo.ready).2)
    as (Hd & Hc & _).
  - apply with_world. vm_compute. reflexivity.
  - split; [exact Hd|]. apply Hc. vm_compute. reflexivity.
Defined.

(** A leftover intermediate file next to a durable file stays where it
    is: the call returns successfully at the check of line 65. *)
Lemma leftover_intermediate_survives :
  let run := @ensure_skewed_dataset_prepared Demo.ext "0.9" Demo.done_09_leftover in
  run.1 = Ok tt ∧
  is_Some (fs run.2 !! csv_path "0.9") ∧
  is_Some (fs run.2 !! h5_path "0.9").
Proof.
  split; [vm_compute; reflexivity|].
  split; eexists; vm_compute; reflexivity.
Defined.

(** The base dataset is there: no process is started. *)
Lemma ensure_idempotent_witness :
  procs (@ensure Demo.ext BaseDataset Demo.ready).2 = [] ∧
  fetches BaseDataset (@ensure Demo.ext BaseDataset Demo.ready).2 = [] ∧
  present BaseDataset (@ensure Demo.ext BaseDataset Demo.ready).2.
Proof.
  apply (@ensure_present_no_fetch Demo.ext BaseDataset Demo.ready).
  eexists. vm_compute. reflexivity.
Defined.


(** The instance [__init__] would build, were [threading] imported. *)
Lemma counter_witness :
  (Counter.get (<["_lock" := Counter.VLock false]>
                  (<["_value" := Counter.VInt 0]> ∅))).1 =
  Raise (error AttributeError "value").
Proof.
  destruct counter_is_dead_and_broken as (_ & _ & Hget & _).
  apply (Hget (<["threading" := Counter.VModule "threading"]> Counter.module_globals)).
  vm_compute. reflexivity.
Defined.


(** On the concrete machine [git clone] always succeeds. *)
Lemma demo_git_clone f r :
  Demo.run (fetch_argv Datawarehouse) (fetch_dir Datawarehouse) (f, r) =
  (0%Z, (<["data/3rd-party/datawarehouse/datawarehouse/higgsml.py" := File (Blob "")]>
           (<["data/3rd-party/datawarehouse/datawarehouse" := Dir]>
              (<["data/3rd-party/datawarehouse" := Dir]> f)), S r)).
Proof. reflexivity. Defined.

Lemma demo_fetch_succeeds : @fetch_succeeds Demo.ext Datawarehouse.
Proof.
  intros f r Hd. change (@spawn Demo.ext) with Demo.run. rewrite demo_git_clone.
  cbn [fst snd]. split; [reflexivity|]. split.
  - rewrite lookup_insert_eq. eexists. reflexivity.
  - unfold dirs_ready in *. rewrite download_dirs_eq in *.
    apply Forall_cons in Hd as [H1 Hd]. apply Forall_cons in Hd as [H2 _].
    repeat constructor; unfold is_dir in *; by rewrite !lookup_insert_ne by done.
Defined.


(** ** Further runs on the concrete machine *)


(** Resuming z = 1.0 from its intermediate file: no process is started. *)
Lemma resume_witness :
  let run := @ensure_skewed_dataset_prepared Demo.ext "1.0" (Demo.interrupted "1.0") in
  procs run.2 = [] ∧ remote run.2 = 0.
Proof.
  destruct (@resume_is_all_or_nothing Demo.ext "1.0" (Demo.interrupted "1.0")
              (@prerequisites Demo.ext (Demo.interrupted "1.0")).2)
    as (Hp & Hr & _).
  - apply with_world. vm_compute. reflexivity.
  - vm_compute. reflexivity.
  - eexists. vm_compute. reflexivity.
  - split; [exact Hp|exact Hr].
Defined.

(** Preparing z = 1.0 on a machine with both resources: the table stored
    is the filtered table of the transform, with [Z] appended. *)
Lemma completeness_witness :
  ∃ df_in v df_out,
    fs (@before_read Demo.ext "1.0" Demo.ready).2 !! csv_path "1.0" =
      Some (File (Csv df_in)) ∧
    @float Demo.ext "1.0" = Ok v ∧
    stored (fs (@ensure_skewed_dataset_prepared Demo.ext "1.0" Demo.ready).2)
           (h5_path "1.0") "data_syst" = Some df_out ∧
    rows df_out =
      with_z (columns df_in) v <$> filter (λ row, passes df_in row = true) (rows df_in) ∧
    columns df_out =
      (if bool_decide ("Z" ∈ columns df_in) then columns df_in
       else columns df_in ++ ["Z"]) ∧
    rectangular df_out = true.
Proof.
  apply (@stored_table_is_the_filtered_input Demo.ext "1.0" Demo.ready).
  - apply with_world. vm_compute. reflexivity.
  - vm_compute. reflexivity.
Defined.

(** The same run ends with the line that reports the stored length. *)
Lemma prepared_line_witness :
  ∃ df_out pre,
    stored (fs (@ensure_skewed_dataset_prepared Demo.ext "1.0" Demo.ready).2)
           (h5_path "1.0") "data_syst" = Some df_out ∧
    out (@ensure_skewed_dataset_prepared Demo.ext "1.0" Demo.ready).2 =
      pre ++ [Msg "Reading CSV..."; Msg "Applying filter...";
              Msg "Writing HDF5..."; Prepared "1.0" (length (rows df_out))].
Proof.
  apply (@prepared_line_reports_stored_rows Demo.ext "1.0" Demo.ready).
  - apply with_world. vm_compute. reflexivity.
  - vm_compute. reflexivity.
Defined.


(** A parameter that is not a number, with its intermediate file in
    place: [ValueError], and the file stays. *)
Lemma bad_parameter_witness :
  ∃ msg,
    @ensure_skewed_dataset_prepared Demo.ext "abc" (Demo.interrupted "abc") =
    (Raise (error ValueError msg),
     log [Preparing "abc"; Msg "Reading CSV..."; Msg "Applying filter..."]
         (@prerequisites Demo.ext (Demo.interrupted "abc")).2).
Proof.
  destruct (@bad_input_fails_before_any_write Demo.ext "abc" (Demo.interrupted "abc")
              (@prerequisites Demo.ext (Demo.interrupted "abc")).2 Demo.table)
    as (_ & _ & Hvalue).
  - apply with_world. vm_compute. reflexivity.
  - vm_compute. reflexivity.
  - vm_compute. reflexivity.
  - reflexivity.
  - apply Hvalue.
    + apply (bool_decide_unpack _). vm_compute. exact I.
    + intros row s Hin Hv. vm_compute in Hin.
      repeat (apply elem_of_cons in Hin as [->|Hin]; [vm_compute in Hv; discriminate Hv|]).
      by apply elem_of_nil in Hin.
    + reflexivity.
Defined.

(** A batch of two that succeeds, iterated in the order second, first. *)
Lemma batch_success_witness :
  ∃ zs', zs' ≡ₚ ["1.0"; "1.01"] ∧
    @prepare_datasets_for Demo.ext ["1.0"; "1.01"] [1; 0] Demo.ready =
      (Ok tt, log (progress_lines 2 0 zs')
                  (@executor_run Demo.ext _ _ (catch ensure_skewed_dataset_prepared)
                     ["1.0"; "1.01"] Demo.ready).2).
Proof.
  destruct (@batch_returns_iff_every_call_returned Demo.ext
              ["1.0"; "1.01"] [1; 0] Demo.ready [Ok None; Ok None]
              (@executor_run Demo.ext _ _ (catch ensure_skewed_dataset_prepared)
                 ["1.0"; "1.01"] Demo.ready).2)
    as (_ & Hfine).
  - apply with_world. vm_compute. reflexivity.
  - apply Permutation_swap.
  - apply Hfine. repeat constructor.
Defined.

(** The batch of the one prepared value: one progress line, nothing else. *)
Lemma rerun_witness :
  ∃ zs', zs' ≡ₚ ["0.9"] ∧
    @prepare_datasets_for Demo.ext ["0.9"] [0] Demo.done_09 =
      (Ok tt, log (progress_lines 1 0 zs') Demo.done_09).
Proof.
  apply (@rerun_of_a_prepared_batch Demo.ext ["0.9"] [0] Demo.done_09).
  - unfold tree. apply (bool_decide_unpack _). vm_compute. exact I.
  - reflexivity.
  - eexists. vm_compute. reflexivity.
  - eexists. vm_compute. reflexivity.
  - constructor; [|constructor]. eexists. vm_compute. reflexivity.
  - reflexivity.
Defined.

(** Three calls of [inc] on the instance [__init__] is meant to build. *)
Lemma inc_witness :
  Nat.iter 3 (λ s, (Counter.inc s).2)
    (<["_lock" := Counter.VLock false]> (<["_value" := Counter.VInt 0]> ∅))
    !! "_value" = Some (Counter.VInt 3).
Proof.
  destruct (inc_counts_the_calls
              (<["_lock" := Counter.VLock false]> (<["_value" := Counter.VInt 0]> ∅)) 0 3)
    as (_ & Hv & _).
  - vm_compute. reflexivity.
  - vm_compute. reflexivity.
  - exact Hv.
Defined.

